(** * netlify/functions/extract.js: the M3U8 extractor, embedded and verified

    The function renders a page in a headless browser, records the manifest
    URLs seen in its network traffic, scans the rendered document for more,
    and answers with the ones that survive a strict URL check.

    JavaScript strings are modelled as [string]: one [ascii] per code unit,
    so the development covers texts whose code units are below 256.  A
    thrown value is any JavaScript value, [null] and [undefined] included,
    modelled by what the one [catch] block that inspects it can read.  What the
    JavaScript runtime and the browser provide (the [URL] constructor,
    [JSON.parse], the behaviour of the page) is not part of the repository:
    it enters as parameters of the sections below, and concrete instances
    are given to run the code on examples.
    [console.log] and [console.error] lines are left out: they have no effect
    on any value. *)

From Stdlib Require Import String Ascii List Bool Arith PeanoNat NArith Lia.
Import ListNotations.

#[local] Set Warnings "-register-all".

Local Open Scope list_scope.
Local Open Scope string_scope.

(* ================================================================== *)
(** ** JavaScript strings *)

Module JSString.

(** [s.includes(sub)] *)
Fixpoint includes (s sub : string) : bool :=
  String.prefix sub s ||
  match s with
  | EmptyString => false
  | String _ t => includes t sub
  end.

(** [a || b] on strings: the empty string is falsy. *)
Definition or_else (a b : string) : string :=
  match a with
  | EmptyString => b
  | _ => a
  end.

(** [s.substring(0, n)] and the rest of [s] from index [n]. *)
Fixpoint take (n : nat) (s : string) : string :=
  match n, s with
  | S k, String c t => String c (take k t)
  | _, _ => EmptyString
  end.

Fixpoint drop (n : nat) (s : string) : string :=
  match n, s with
  | S k, String _ t => drop k t
  | _, _ => s
  end.

Fixpoint all (p : ascii -> bool) (s : string) : bool :=
  match s with
  | EmptyString => true
  | String c t => p c && all p t
  end.

(** The first code unit, when there is one, satisfies [p]. *)
Definition head_is (p : ascii -> bool) (s : string) : bool :=
  match s with
  | EmptyString => false
  | String c _ => p c
  end.

Fixpoint last_is (p : ascii -> bool) (s : string) : bool :=
  match s with
  | EmptyString => false
  | String c EmptyString => p c
  | String _ t => last_is p t
  end.

Definition code (c : ascii) : nat := nat_of_ascii c.

Definition is_one_of (cs : list nat) (c : ascii) : bool :=
  existsb (Nat.eqb (code c)) cs.

End JSString.

Import JSString.

(** The manifest marker of the glossary. *)
Definition marker : string := ".m3u8".

(* ================================================================== *)
(** ** [Set] of strings

    A JavaScript [Set] keeps its elements in insertion order and compares
    strings by value; [Array.from] enumerates it in that order. *)

Module JSSet.

Definition t := list string.

Definition empty : t := [].

Definition has (s : t) (x : string) : bool := existsb (String.eqb x) s.

Definition add (s : t) (x : string) : t :=
  if has s x then s else (s ++ [x])%list.

(** [xs.forEach(x => s.add(x))] *)
Definition add_all (s : t) (xs : list string) : t := fold_left add xs s.

Definition Array_from (s : t) : list string := s.

End JSSet.

(* ================================================================== *)
(** ** Exceptions

    JavaScript throws, and rejects a promise with, any value.  The code
    looks at a caught value in one place, the template literal of line 93,
    which reads its [message] and converts that to a string; a thrown value
    is modelled by what this does. *)

(** An object, by the text its [message] converts to: the message of an
    [Error], ["undefined"] for an object without one. *)
Record Error := { message : string }.

(** A thrown value: [undefined]; [null]; another primitive (a string,
    number, boolean, bigint or symbol); an object with a message; or an
    object whose [message] cannot be read or converted, because a getter or
    the conversion throws [raised]. *)
Inductive Thrown : Type :=
| Thrown_undefined
| Thrown_null
| Thrown_primitive
| Thrown_object (error : Error)
| Thrown_unreadable (raised : Thrown).

Definition TypeError (text : string) : Thrown := Thrown_object {| message := text |}.

Inductive outcome (A : Type) : Type :=
| Return (a : A)
| Throw (e : Thrown).

Arguments Return {A} a.
Arguments Throw {A} e.

(** The template [error.message] of line 93: no property can be read from
    [undefined] or [null]; a primitive has no [message]. *)
Definition error_message (error : Thrown) : outcome string :=
  match error with
  | Thrown_undefined =>
      Throw (TypeError "Cannot read properties of undefined (reading 'message')")
  | Thrown_null =>
      Throw (TypeError "Cannot read properties of null (reading 'message')")
  | Thrown_primitive => Return "undefined"
  | Thrown_object e => Return (message e)
  | Thrown_unreadable raised => Throw raised
  end.

(* ================================================================== *)
(** ** The URL pattern of the Content Scanner

    The pattern, flags [g] and [i], reads: [http], an optional [s], [://],
    one or more code units of the class C, the literal [.m3u8], and an
    optional group made of [?] and any number of code units of C.  C is the
    negated class: everything but white space, the two quote characters,
    angle brackets, parentheses, braces and square brackets.

    The matcher below follows the pattern term by term with the
    backtracking order of a JavaScript engine: a greedy quantifier first
    takes as much as it can and gives back one code unit at a time.  Each
    function returns the number of code units the rest of the pattern
    consumes from the given position. *)

Module Pattern.

(** [\s] on code units below 256: TAB, LF, VT, FF, CR, SP and NBSP. *)
Definition white_space (c : ascii) : bool :=
  is_one_of [9; 10; 11; 12; 13; 32; 160] c.

(** The ten code units listed in the class besides [\s]:
    double quote, apostrophe, angle brackets, parentheses, braces, square brackets. *)
Definition listed (c : ascii) : bool :=
  is_one_of [34; 39; 60; 62; 40; 41; 123; 125; 91; 93] c.

(** The negated class. *)
Definition url_char (c : ascii) : bool := negb (white_space c || listed c).

(** Flag [i]: code units compare after canonicalisation, which on the
    ASCII letters of the pattern is upper-casing; no code unit above 127
    canonicalises to an ASCII one. *)
Definition canonicalize (c : ascii) : ascii :=
  let n := code c in
  if Nat.leb 97 n && Nat.leb n 122 then ascii_of_nat (n - 32) else c.

Definition char_ci (p c : ascii) : bool :=
  Ascii.eqb (canonicalize p) (canonicalize c).

(** A literal run of the pattern: the rest of the input after it. *)
Fixpoint literal (pat s : string) : option string :=
  match pat with
  | EmptyString => Some s
  | String p pat' =>
      match s with
      | String c s' => if char_ci p c then literal pat' s' else None
      | EmptyString => None
      end
  end.

(** The run of C that ends the pattern: greedy, nothing follows it. *)
Fixpoint class_star (s : string) : nat :=
  match s with
  | String c t => if url_char c then S (class_star t) else 0
  | EmptyString => 0
  end.

(** The optional group, [?] then any run of C: tried first and taken
    when it matches. *)
Definition query_opt (s : string) : nat :=
  match s with
  | String c t => if Ascii.eqb c "?"%char then S (class_star t) else 0
  | EmptyString => 0
  end.

(** The literal [.m3u8] and the optional group. *)
Definition marker_then (s : string) : option nat :=
  match literal marker s with
  | Some t => Some (5 + query_opt t)
  | None => None
  end.

(** Any run of C followed by the marker: take one more code unit when allowed
    and the rest then matches, otherwise stop here. *)
Fixpoint class_star_then (s : string) : option nat :=
  match s with
  | String c t =>
      if url_char c then
        match class_star_then t with
        | Some n => Some (S n)
        | None => marker_then s
        end
      else marker_then s
  | EmptyString => marker_then s
  end.

(** One or more of C followed by the marker. *)
Definition class_plus_then (s : string) : option nat :=
  match s with
  | String c t =>
      if url_char c then option_map S (class_star_then t) else None
  | EmptyString => None
  end.

(** [:\/\/] and what follows. *)
Definition slashes_then (s : string) : option nat :=
  match literal "://" s with
  | Some t => option_map (Nat.add 3) (class_plus_then t)
  | None => None
  end.

(** [s?] and what follows: with the [s] first, then without. *)
Definition s_opt_then (s : string) : option nat :=
  match s with
  | String c t =>
      if char_ci "s"%char c then
        match slashes_then t with
        | Some n => Some (S n)
        | None => slashes_then s
        end
      else slashes_then s
  | EmptyString => slashes_then s
  end.

(** The whole pattern tried at the start of [s]: the length of the match. *)
Definition match_at (s : string) : option nat :=
  match literal "http" s with
  | Some t => option_map (Nat.add 4) (s_opt_then t)
  | None => None
  end.

(** The loop of a global match: from [lastIndex], the first index where
    the pattern matches gives the next result and [lastIndex] moves to the
    end of it (a match is never empty).  [fuel] bounds the iterations. *)
Fixpoint exec_loop (fuel : nat) (s : string) : list string :=
  match fuel with
  | O => []
  | S fuel' =>
      match s with
      | EmptyString => []
      | String _ t =>
          match match_at s with
          | Some n => take n s :: exec_loop fuel' (drop n s)
          | None => exec_loop fuel' t
          end
      end
  end.

Definition match_all (s : string) : list string :=
  exec_loop (String.length s) s.

(** [s.match(re)]: [null] when nothing matches, else every match. *)
Definition String_match (s : string) : option (list string) :=
  match match_all s with
  | [] => None
  | l => Some l
  end.

End Pattern.

(* ================================================================== *)
(** ** JavaScript values that reach the handler

    [JSON.parse] yields null, booleans, numbers, strings, arrays and
    objects; [None] of [option JSValue] stands for [undefined]. *)

(** A number, by what the handler can observe of it: whether it is truthy
    (neither zero nor NaN), whether it is finite, and how it prints. *)
Record JSNumber := {
  number_truthy : bool;
  number_finite : bool;
  number_text : string
}.

Inductive JSValue : Type :=
| JNull
| JBool (b : bool)
| JNumber (n : JSNumber)
| JString (s : string)
| JArray (items : list JSValue)
| JObject (fields : list (string * JSValue)).

(** ToBoolean *)
Definition truthy (v : JSValue) : bool :=
  match v with
  | JNull => false
  | JBool b => b
  | JNumber n => number_truthy n
  | JString s => negb (String.eqb s "")
  | JArray _ | JObject _ => true
  end.

Fixpoint lookup {A : Type} (k : string) (fields : list (string * A)) : option A :=
  match fields with
  | [] => None
  | (k', v) :: rest => if String.eqb k k' then Some v else lookup k rest
  end.

(** [v.url] on a parsed body: a [TypeError] on [null], the field of an
    object, [undefined] on anything else. *)
Definition get_url (v : JSValue) : outcome (option JSValue) :=
  match v with
  | JNull => Throw (TypeError "Cannot read properties of null (reading 'url')")
  | JObject fields => Return (lookup "url" fields)
  | _ => Return None
  end.

Definition join (sep : string) (parts : list string) : string :=
  match parts with
  | [] => ""
  | p :: rest => fold_left (fun acc q => acc ++ sep ++ q) rest p
  end.


(** ToString, as [new URL(v)] applies it to its argument.  A parsed object
    holds no function: with a member named [toString] of its own neither
    that nor [valueOf] yields a primitive and the conversion throws; without
    one [Object.prototype.toString] answers.  An array joins the conversions
    of its elements, the empty string standing for [null], and throws when
    one of them does. *)
Fixpoint ToString (v : JSValue) : outcome string :=
  match v with
  | JNull => Return "null"
  | JBool true => Return "true"
  | JBool false => Return "false"
  | JNumber n => Return (number_text n)
  | JString s => Return s
  | JArray items =>
      let fix elements (items : list JSValue) : outcome (list string) :=
        match items with
        | [] => Return []
        | x :: rest =>
            match (match x with JNull => Return "" | _ => ToString x end) with
            | Return text =>
                match elements rest with
                | Return texts => Return (text :: texts)
                | Throw e => Throw e
                end
            | Throw e => Throw e
            end
        end in
      match elements items with
      | Return texts => Return (join "," texts)
      | Throw e => Throw e
      end
  | JObject fields =>
      match lookup "toString" fields with
      | Some _ => Throw (TypeError "Cannot convert object to primitive value")
      | None => Return "[object Object]"
      end
  end.

Definition hex_digit (n : nat) : ascii :=
  if Nat.ltb n 10 then ascii_of_nat (48 + n) else ascii_of_nat (87 + n).

(** QuoteJSONString on code units below 256. *)
Definition quote_char (c : ascii) : string :=
  let n := code c in
  if Nat.eqb n 8 then "\b"
  else if Nat.eqb n 9 then "\t"
  else if Nat.eqb n 10 then "\n"
  else if Nat.eqb n 12 then "\f"
  else if Nat.eqb n 13 then "\r"
  else if Nat.eqb n 34 then String "\" (String "034" "")
  else if Nat.eqb n 92 then "\\"
  else if Nat.ltb n 32 then
    "\u00" ++ String (hex_digit (n / 16)) (String (hex_digit (n mod 16)) "")
  else String c "".

Fixpoint quote_body (s : string) : string :=
  match s with
  | EmptyString => ""
  | String c t => quote_char c ++ quote_body t
  end.

Definition quote (s : string) : string :=
  String "034" (quote_body s ++ String "034" "").

(** [JSON.stringify(v)] without indentation. *)
Fixpoint JSON_stringify (v : JSValue) : string :=
  match v with
  | JNull => "null"
  | JBool true => "true"
  | JBool false => "false"
  | JNumber n => if number_finite n then number_text n else "null"
  | JString s => quote s
  | JArray items => "[" ++ join "," (map JSON_stringify items) ++ "]"
  | JObject fields =>
      "{" ++ join "," (map (fun kv => quote (fst kv) ++ ":" ++ JSON_stringify (snd kv)) fields) ++ "}"
  end.


(* ================================================================== *)
(** ** The rendered page, as the Content Scanner reads it *)

Record Element := {
  localName : string;
  attributes : list (string * string);
  textContent : string;
  innerText : string
}.

(** [el.getAttribute(attr)]: [null] when the attribute is absent. *)
Definition getAttribute (el : Element) (attr : string) : option string :=
  lookup attr (attributes el).

(** What reading a global and serialising it can do: the value is falsy;
    or it is truthy and [JSON.stringify] throws (a cycle), returns
    [undefined] (a function) or returns a text. *)
Inductive WindowValue :=
| Falsy
| Truthy (stringified : outcome (option string)).

Record Document := {
  (** every element, in document order: [querySelectorAll('*')] *)
  all_elements : list Element;
  (** [window[name]]: reading the property may itself throw *)
  window : string -> outcome WindowValue;
  (** [document.documentElement.innerHTML], [None] without a root element *)
  documentElement : option string
}.

Definition querySelectorAll_script (doc : Document) : list Element :=
  filter (fun el => String.eqb (localName el) "script") (all_elements doc).

Module Scanner.

(** [if (m3u8Matches) m3u8Matches.forEach(link => links.add(link))] *)
Definition add_matches (links : JSSet.t) (text : string) : JSSet.t :=
  match Pattern.String_match text with
  | Some m3u8Matches => JSSet.add_all links m3u8Matches
  | None => links
  end.

(** Pass 1: the text of every script element. *)
Definition scan_script (links : JSSet.t) (script : Element) : JSSet.t :=
  let content := or_else (textContent script) (or_else (innerText script) "") in
  add_matches links content.

Definition scan_scripts (doc : Document) (links : JSSet.t) : JSSet.t :=
  fold_left scan_script (querySelectorAll_script doc) links.

Definition videoConfigs : list string :=
  ["jwplayer"; "videojs"; "Hls"; "hlsPlayer"; "player";
   "videoPlayer"; "streamPlayer"; "mediaPlayer"; "jwConfig"].

(** Pass 2, one name: everything that throws inside the [try] is caught
    and skips the name; [configStr.match] on [undefined] throws too. *)
Definition scan_config (doc : Document) (links : JSSet.t) (configName : string) : JSSet.t :=
  match window doc configName with
  | Throw _ => links
  | Return Falsy => links
  | Return (Truthy (Throw _)) => links
  | Return (Truthy (Return None)) => links
  | Return (Truthy (Return (Some configStr))) => add_matches links configStr
  end.

Definition scan_configs (doc : Document) (links : JSSet.t) : JSSet.t :=
  fold_left (scan_config doc) videoConfigs links.

Definition source_attributes : list string :=
  ["data-src"; "data-url"; "data-stream"; "data-file"; "src"].

(** Pass 3, one attribute of one element: [value && value.includes('.m3u8')] *)
Definition scan_attribute (el : Element) (links : JSSet.t) (attr : string) : JSSet.t :=
  match getAttribute el attr with
  | Some value =>
      if negb (String.eqb value "") && includes value marker
      then JSSet.add links value
      else links
  | None => links
  end.

Definition scan_element (links : JSSet.t) (el : Element) : JSSet.t :=
  fold_left (scan_attribute el) source_attributes links.

Definition scan_elements (doc : Document) (links : JSSet.t) : JSSet.t :=
  fold_left scan_element (all_elements doc) links.

(** Pass 4: the serialised document; without a root element the property
    read throws. *)
Definition scan_html (doc : Document) (links : JSSet.t) : outcome JSSet.t :=
  match documentElement doc with
  | Some allText => Return (add_matches links allText)
  | None => Throw (TypeError "Cannot read properties of null (reading 'innerHTML')")
  end.

(** The function handed to [page.evaluate]. *)
Definition pageFunction (doc : Document) : outcome (list string) :=
  let links := JSSet.empty in
  let links := scan_scripts doc links in
  let links := scan_configs doc links in
  let links := scan_elements doc links in
  match scan_html doc links with
  | Return links => Return (JSSet.Array_from links)
  | Throw e => Throw e
  end.

End Scanner.

(* ================================================================== *)
(** ** The browser session *)

(** What the page does on the network while the extractor waits. *)
Inductive NetEvent :=
| Request (resourceType url : string)
| Response (url : string) (responseHeaders : list (string * string)).

(** The calls the extractor makes on the browser, as they happen. *)
Inductive Op :=
| Chromium_executablePath
| Puppeteer_launch
| Browser_newPage
| Page_setUserAgent (userAgent : string)
| Page_setRequestInterception (value : bool)
| Page_goto (url : JSValue) (timeout : N)
| Page_waitForTimeout (milliseconds : N)
| Page_evaluate
| Request_abort (url : string)
| Request_continue (url : string)
| Browser_close.

(** How each awaited call ends in one invocation, and which network
    events are delivered to the hooks while it is pending. *)
Record World := {
  chromium_executablePath : outcome string;
  puppeteer_launch : outcome unit;
  browser_newPage : outcome unit;
  page_setUserAgent : outcome unit;
  page_setRequestInterception : outcome unit;
  page_goto : list NetEvent * outcome unit;
  page_waitForTimeout : list NetEvent * outcome unit;
  page_evaluate : list NetEvent * outcome Document;
  browser_close : outcome unit;
  (** [new Date().toISOString()] *)
  Date_toISOString : string
}.

(** The variables of [extractM3U8WithBrowser] that outlive a statement,
    and the calls made so far. *)
Record Session := {
  browser : bool;            (** [browser] is no longer [null] *)
  m3u8Links : JSSet.t;
  trace : list Op
}.

Definition initial : Session :=
  {| browser := false; m3u8Links := JSSet.empty; trace := [] |}.

Definition log (op : Op) (s : Session) : Session :=
  {| browser := browser s; m3u8Links := m3u8Links s; trace := (trace s ++ [op])%list |}.

Definition add_link (url : string) (s : Session) : Session :=
  {| browser := browser s; m3u8Links := JSSet.add (m3u8Links s) url; trace := trace s |}.

Definition set_browser (s : Session) : Session :=
  {| browser := true; m3u8Links := m3u8Links s; trace := trace s |}.

(** Code that reads and writes the session and may throw. *)
Definition M (A : Type) : Type := Session -> Session * outcome A.

Definition ret {A} (a : A) : M A := fun s => (s, Return a).

Definition throw {A} (e : Thrown) : M A := fun s => (s, Throw e).

Definition bind {A B} (m : M A) (k : A -> M B) : M B :=
  fun s =>
    match m s with
    | (s', Return a) => k a s'
    | (s', Throw e) => (s', Throw e)
    end.

Notation "x <- m ;; k" := (bind m (fun x => k))
  (at level 61, m at next level, right associativity).
Notation "m ;;; k" := (bind m (fun _ => k))
  (at level 61, right associativity).

Definition modify (f : Session -> Session) : M unit := fun s => (f s, Return tt).

Definition get {A} (f : Session -> A) : M A := fun s => (s, Return (f s)).

Definition lift {A} (r : outcome A) : M A := fun s => (s, r).

(** [try { body } finally { fin }]: [fin] runs however [body] ends, and an
    exception of [fin] replaces the result of [body]. *)
Definition try_finally {A} (body : M A) (fin : M unit) : M A :=
  fun s =>
    let (s1, r) := body s in
    match fin s1 with
    | (s2, Return _) => (s2, r)
    | (s2, Throw e) => (s2, Throw e)
    end.

(** [try { body } catch (error) { handler }] *)
Definition try_catch {A} (body : M A) (handler : Thrown -> M A) : M A :=
  fun s =>
    match body s with
    | (s1, Return a) => (s1, Return a)
    | (s1, Throw e) => handler e s1
    end.

Module Observer.

Definition blocked : list string := ["image"; "font"; "stylesheet"].

(** [page.on('request', ...)] *)
Definition on_request (resourceType url : string) (s : Session) : Session :=
  let s := if includes url marker then add_link url s else s in
  if existsb (String.eqb resourceType) blocked
  then log (Request_abort url) s
  else log (Request_continue url) s.

(** [response.headers()['content-type'] || ''] *)
Definition content_type (responseHeaders : list (string * string)) : string :=
  match lookup "content-type" responseHeaders with
  | Some v => or_else v ""
  | None => ""
  end.

(** [page.on('response', ...)] *)
Definition on_response (url : string) (responseHeaders : list (string * string)) (s : Session) : Session :=
  let contentType := content_type responseHeaders in
  if includes url marker
     || includes contentType "application/vnd.apple.mpegurl"
     || includes contentType "application/x-mpegurl"
  then add_link url s
  else s.

Definition deliver (s : Session) (ev : NetEvent) : Session :=
  match ev with
  | Request resourceType url => on_request resourceType url s
  | Response url responseHeaders => on_response url responseHeaders s
  end.

Definition deliver_all (events : list NetEvent) (s : Session) : Session :=
  fold_left deliver events s.

End Observer.

(** A call that is not awaited against page activity. *)
Definition call {A} (op : Op) (result : outcome A) : M A :=
  modify (log op) ;;; lift result.

(** An awaited call during which the page is active: the hooks run on
    every event before the continuation does. *)
Definition await {A} (op : Op) (result : list NetEvent * outcome A) : M A :=
  modify (log op) ;;; modify (Observer.deliver_all (fst result)) ;;; lift (snd result).

(* ================================================================== *)
(** ** The extractor and the handler *)

(** The one property the code reads from a parsed [URL]. *)
Record URLObject := { pathname : string }.

Record Event := {
  httpMethod : string;
  (** [null] or the query parameters *)
  queryStringParameters : option (list (string * string));
  (** [null] or the request body *)
  body : option string
}.

(** The [context] argument, by the one property the code touches. *)
Record Context := { callbackWaitsForEmptyEventLoop : bool }.

(** Line 6, [context.callbackWaitsForEmptyEventLoop = value].  [None] is a
    call without context: the assignment to a property of [undefined]
    throws. *)
Definition set_callbackWaitsForEmptyEventLoop (context : option Context) (value : bool) : outcome Context :=
  match context with
  | Some _ => Return {| callbackWaitsForEmptyEventLoop := value |}
  | None =>
      Throw (TypeError
               "Cannot set properties of undefined (setting 'callbackWaitsForEmptyEventLoop')")
  end.

Record HttpResponse := {
  statusCode : nat;
  response_headers : list (string * string);
  response_body : string
}.

Definition userAgent_string : string :=
  "Mozilla/5.0 (Windows NT 10.0; Win64; x64) AppleWebKit/537.36 (KHTML, like Gecko) Chrome/120.0.0.0 Safari/537.36".

Definition headers : list (string * string) :=
  [("Access-Control-Allow-Origin", "*");
   ("Access-Control-Allow-Methods", "GET, POST, OPTIONS");
   ("Access-Control-Allow-Headers", "Content-Type");
   ("Content-Type", "application/json")].

Section Runtime.

(** [new URL(s)] of the runtime: the parsed URL, or the [TypeError]. *)
Variable URL : string -> outcome URLObject.

(** [JSON.parse(s)] of the runtime: the value, or the [SyntaxError]. *)
Variable JSON_parse : string -> outcome JSValue.

(** The callback of the final [filter]. *)
Definition is_manifest_url (link : string) : bool :=
  match URL link with
  | Return url => includes (pathname url) marker
  | Throw _ => false
  end.

Definition final_filter (links : list string) : list string :=
  filter is_manifest_url links.

(** The body of the [try] block of [extractM3U8WithBrowser]. *)
Definition extract_body (w : World) (targetUrl : JSValue) : M (list string) :=
  _ <- call Chromium_executablePath (chromium_executablePath w) ;;
  call Puppeteer_launch (puppeteer_launch w) ;;;
  modify set_browser ;;;
  call Browser_newPage (browser_newPage w) ;;;
  call (Page_setUserAgent userAgent_string) (page_setUserAgent w) ;;;
  call (Page_setRequestInterception true) (page_setRequestInterception w) ;;;
  await (Page_goto targetUrl 25000%N) (page_goto w) ;;;
  await (Page_waitForTimeout 5000%N) (page_waitForTimeout w) ;;;
  doc <- await Page_evaluate (page_evaluate w) ;;
  pageM3u8Links <- lift (Scanner.pageFunction doc) ;;
  modify (fun s => fold_left (fun s link => add_link link s) pageM3u8Links s) ;;;
  links <- get m3u8Links ;;
  ret (final_filter (JSSet.Array_from links)).

(** The [finally] block: [if (browser) await browser.close()]. *)
Definition extract_finally (w : World) : M unit :=
  b <- get browser ;;
  if b then call Browser_close (browser_close w) else ret tt.

Definition extractM3U8WithBrowser (w : World) (targetUrl : JSValue) : M (list string) :=
  try_finally (extract_body w targetUrl) (extract_finally w).

Definition respond (status : nat) (payload : JSValue) : HttpResponse :=
  {| statusCode := status;
     response_headers := headers;
     response_body := JSON_stringify payload |}.

Definition failure (status : nat) (error : string) : HttpResponse :=
  respond status (JObject [("success", JBool false); ("error", JString error)]).

(** [event.body || '{}'] *)
Definition body_text (event : Event) : string :=
  match body event with
  | Some b => or_else b "{}"
  | None => "{}"
  end.

(** Lines 26-32: the target from the query or from the body. *)
Definition read_target (event : Event) : outcome (option JSValue) :=
  if String.eqb (httpMethod event) "GET" then
    match queryStringParameters event with
    | Some params => Return (option_map JString (lookup "url" params))
    | None => Return None
    end
  else if String.eqb (httpMethod event) "POST" then
    match JSON_parse (body_text event) with
    | Return parsed => get_url parsed
    | Throw e => Throw e
    end
  else Return None.

(** [new URL(targetUrl)]: the argument is converted to a string, then
    parsed. *)
Definition new_URL (targetUrl : JSValue) : outcome URLObject :=
  match ToString targetUrl with
  | Return text => URL text
  | Throw e => Throw e
  end.

(** [m3u8Links[0]] of a list known to be non-empty; [undefined]
    properties are left out by [JSON.stringify]. *)
Definition success_payload (w : World) (targetUrl : JSValue) (m3u8Links : list string) : JSValue :=
  JObject ([("success", JBool true);
            ("url", targetUrl);
            ("m3u8Links", JArray (map JString m3u8Links))]
           ++ match m3u8Links with
              | primary :: _ => [("primaryLink", JString primary)]
              | [] => []
              end
           ++ [("timestamp", JString (Date_toISOString w))])%list.

(** The [try] block of the handler. *)
Definition handler_body (w : World) (event : Event) : M HttpResponse :=
  target <- lift (read_target event) ;;
  match target with
  | None =>
      ret (failure 400 "Missing url parameter. Usage: /extract?url=https://example.com")
  | Some targetUrl =>
      if negb (truthy targetUrl) then
        ret (failure 400 "Missing url parameter. Usage: /extract?url=https://example.com")
      else
        match new_URL targetUrl with
        | Throw _ => ret (failure 400 "Invalid URL provided")
        | Return _ =>
            m3u8Links <- extractM3U8WithBrowser w targetUrl ;;
            match m3u8Links with
            | [] => ret (failure 404 "No M3U8 links found on the webpage")
            | _ => ret (respond 200 (success_payload w targetUrl m3u8Links))
            end
        end
  end.

(** [exports.handler].  The assignment of line 6 stands outside the [try];
    the object it updates is the platform's, which reads the flag once the
    handler has settled, and the handler does not use it again.  In the
    [catch] block the template literal is evaluated before the response is
    built, and what it throws leaves the handler. *)
Definition handler (w : World) (event : Event) (context : option Context) : M HttpResponse :=
  lift (set_callbackWaitsForEmptyEventLoop context false) ;;;
  if String.eqb (httpMethod event) "OPTIONS" then
    ret {| statusCode := 200; response_headers := headers; response_body := "" |}
  else
    try_catch (handler_body w event)
      (fun error =>
         text <- lift (error_message error) ;;
         ret (failure 500 ("Internal server error: " ++ text))).

End Runtime.

(* ================================================================== *)
(** ** A reference [URL] constructor

    The basic URL parser of the URL Standard for an input without base URL,
    as far as it decides success and the path: scheme, authority, port, path
    segments with their percent-encoding and dot segments, the file-scheme
    states and opaque paths.  Host parsing proper (IDNA, IPv4, IPv6) is left
    to a parameter that says whether a host text is accepted.  It serves as
    the parser of the examples, and to relate a pathname to the text it was
    parsed from. *)

Module Whatwg.

Definition is_code (n : nat) (c : ascii) : bool := Nat.eqb (code c) n.

Definition ascii_alpha (c : ascii) : bool :=
  let n := code c in
  (Nat.leb 65 n && Nat.leb n 90) || (Nat.leb 97 n && Nat.leb n 122).

Definition ascii_digit (c : ascii) : bool :=
  let n := code c in Nat.leb 48 n && Nat.leb n 57.

Definition ascii_lower (c : ascii) : ascii :=
  let n := code c in
  if Nat.leb 65 n && Nat.leb n 90 then ascii_of_nat (n + 32) else c.

Fixpoint lowercase (s : string) : string :=
  match s with
  | EmptyString => ""
  | String c t => String (ascii_lower c) (lowercase t)
  end.

(** C0 control or space. *)
Definition c0_or_space (c : ascii) : bool := Nat.leb (code c) 32.

Fixpoint strip_leading (s : string) : string :=
  match s with
  | String c t => if c0_or_space c then strip_leading t else s
  | EmptyString => ""
  end.

Fixpoint strip_trailing (s : string) : string :=
  match s with
  | String c t =>
      match strip_trailing t with
      | EmptyString => if c0_or_space c then "" else String c ""
      | t' => String c t'
      end
  | EmptyString => ""
  end.

Definition tab_or_newline (c : ascii) : bool := is_one_of [9; 10; 13] c.

Fixpoint remove_tab_newline (s : string) : string :=
  match s with
  | String c t =>
      if tab_or_newline c then remove_tab_newline t
      else String c (remove_tab_newline t)
  | EmptyString => ""
  end.

(** The longest prefix without a code unit of [stop], and the rest. *)
Fixpoint span_until (stop : ascii -> bool) (s : string) : string * string :=
  match s with
  | String c t =>
      if stop c then ("", s)
      else let (a, b) := span_until stop t in (String c a, b)
  | EmptyString => ("", "")
  end.

(** What follows the last occurrence of the code unit [n]. *)
Fixpoint after_last (n : nat) (s : string) : option string :=
  match s with
  | String c t =>
      match after_last n t with
      | Some r => Some r
      | None => if is_code n c then Some t else None
      end
  | EmptyString => None
  end.

(** *** Percent-encoding *)

Definition c0_control_set (c : ascii) : bool :=
  let n := code c in Nat.ltb n 32 || Nat.ltb 126 n.

Definition query_set (c : ascii) : bool :=
  c0_control_set c || is_one_of [32; 34; 35; 60; 62] c.

Definition path_set (c : ascii) : bool :=
  query_set c || is_one_of [63; 94; 96; 123; 125] c.

Definition hex_upper (n : nat) : ascii :=
  if Nat.ltb n 10 then ascii_of_nat (48 + n) else ascii_of_nat (55 + n).

Definition percent_byte (n : nat) : string :=
  String "%" (String (hex_upper (n / 16)) (String (hex_upper (n mod 16)) "")).

(** The UTF-8 bytes of a code point below 256, each percent-encoded. *)
Definition utf8_percent (c : ascii) : string :=
  let n := code c in
  if Nat.ltb n 128 then percent_byte n
  else percent_byte (192 + n / 64) ++ percent_byte (128 + n mod 64).

Definition percent_encode (set : ascii -> bool) (c : ascii) : string :=
  if set c then utf8_percent c else String c "".

(** *** Path segments *)

Definition eq_ci (a b : string) : bool := String.eqb (lowercase a) (lowercase b).

Definition single_dot (buffer : string) : bool :=
  String.eqb buffer "." || eq_ci buffer "%2e".

Definition double_dot (buffer : string) : bool :=
  String.eqb buffer ".." || eq_ci buffer ".%2e"
  || eq_ci buffer "%2e." || eq_ci buffer "%2e%2e".

Definition windows_drive_letter (buffer : string) : bool :=
  match buffer with
  | String a (String b EmptyString) => ascii_alpha a && (is_code 58 b || is_code 124 b)
  | _ => false
  end.

Definition normalized_drive_letter (segment : string) : bool :=
  match segment with
  | String a (String b EmptyString) => ascii_alpha a && is_code 58 b
  | _ => false
  end.

Section Parser.

(** Host parsing: is this host text accepted (opaque host or domain)? *)
Variable host_parser : forall (isOpaque : bool) (input : string), bool.

(** The scheme is special; the scheme is [file]. *)
Variables (special file : bool).

Definition is_slash (c : ascii) : bool :=
  is_code 47 c || (special && is_code 92 c).

(** Shorten a path. *)
Definition shorten (path : list string) : list string :=
  match path with
  | [segment] => if file && normalized_drive_letter segment then path else []
  | _ => removelast path
  end.

(** The path state at the end of a segment; [slash] tells whether a slash
    ended it. *)
Definition close_segment (slash : bool) (path : list string) (buffer : string) : list string :=
  if double_dot buffer then
    let path := shorten path in
    if slash then path else (path ++ [""])%list
  else if single_dot buffer then
    if slash then path else (path ++ [""])%list
  else
    match path, buffer with
    | [], String a (String _ EmptyString) =>
        if file && windows_drive_letter buffer
        then [String a (String ":" "")]
        else [buffer]
    | _, _ => (path ++ [buffer])%list
    end.

(** The path state. *)
Fixpoint path_state (s : string) (path : list string) (buffer : string) : list string :=
  match s with
  | EmptyString => close_segment false path buffer
  | String c t =>
      if is_slash c then path_state t (close_segment true path buffer) ""
      else if is_code 63 c || is_code 35 c then close_segment false path buffer
      else path_state t path (buffer ++ percent_encode path_set c)
  end.

(** The path start state. *)
Definition path_start_state (s : string) : list string :=
  match s with
  | EmptyString => if special then path_state s [] "" else []
  | String c t =>
      if special then
        if is_code 47 c || is_code 92 c then path_state t [] "" else path_state s [] ""
      else if is_code 63 c || is_code 35 c then []
      else if is_code 47 c then path_state t [] "" else path_state s [] ""
  end.

(** The URL path serializer on a list of segments. *)
Fixpoint serialize_path (path : list string) : string :=
  match path with
  | [] => ""
  | segment :: rest => "/" ++ segment ++ serialize_path rest
  end.

(** The host from the host state: up to the first colon outside square
    brackets, and what follows that colon. *)
Fixpoint split_host (insideBrackets : bool) (s : string) : string * option string :=
  match s with
  | EmptyString => ("", None)
  | String c t =>
      if is_code 58 c && negb insideBrackets then ("", Some t)
      else
        let inside := if is_code 91 c then true
                      else if is_code 93 c then false
                      else insideBrackets in
        let (h, p) := split_host inside t in (String c h, p)
  end.

Fixpoint port_value (digits : string) (acc : N) : N :=
  match digits with
  | EmptyString => acc
  | String c t => port_value t (acc * 10 + N.of_nat (code c - 48))%N
  end.

(** The port state: digits only, and at most 65535. *)
Definition port_ok (text : string) : bool :=
  all ascii_digit text && (port_value text 0 <=? 65535)%N.

(** The authority and host states on the text of the authority. *)
Definition authority_ok (authority : string) : bool :=
  let (atSignSeen, hostport) :=
    match after_last 64 authority with
    | Some r => (true, r)
    | None => (false, authority)
    end in
  if atSignSeen && String.eqb hostport "" then false
  else
    match split_host false hostport with
    | (buffer, Some port) =>
        negb (String.eqb buffer "") && host_parser (negb special) buffer && port_ok port
    | (buffer, None) =>
        negb (special && String.eqb buffer "") && host_parser (negb special) buffer
    end.

Definition authority_end (c : ascii) : bool :=
  is_code 47 c || is_code 63 c || is_code 35 c || (special && is_code 92 c).

(** The authority state and what follows it. *)
Definition authority_state (s : string) : option (list string) :=
  let (authority, rest) := span_until authority_end s in
  if authority_ok authority then Some (path_start_state rest) else None.

End Parser.

Section Constructor.

Variable host_parser : forall (isOpaque : bool) (input : string), bool.

Definition scheme_char (c : ascii) : bool :=
  ascii_alpha c || ascii_digit c || is_one_of [43; 45; 46] c.

(** The scheme start and scheme states: the lower-cased scheme and what
    follows the colon; without a base URL anything else is a failure. *)
Definition scheme_state (s : string) : option (string * string) :=
  match s with
  | String c _ =>
      if ascii_alpha c then
        match span_until (fun c => negb (scheme_char c)) s with
        | (buffer, String colon rest) =>
            if is_code 58 colon then Some (lowercase buffer, rest) else None
        | (_, EmptyString) => None
        end
      else None
  | EmptyString => None
  end.

Definition special_scheme (scheme : string) : bool :=
  existsb (String.eqb scheme) ["ftp"; "file"; "http"; "https"; "ws"; "wss"].

(** The special authority slashes and ignore-slashes states. *)
Fixpoint ignore_slashes (s : string) : string :=
  match s with
  | String c t => if is_code 47 c || is_code 92 c then ignore_slashes t else s
  | EmptyString => ""
  end.

Definition file_host_end (c : ascii) : bool :=
  is_code 47 c || is_code 92 c || is_code 63 c || is_code 35 c.

(** The file host state. *)
Definition file_host_state (s : string) : option (list string) :=
  let (buffer, rest) := span_until file_host_end s in
  if windows_drive_letter buffer then Some (path_state true true rest [] buffer)
  else if String.eqb buffer "" then Some (path_start_state true true rest)
  else if host_parser false buffer then Some (path_start_state true true rest)
  else None.

(** The file and file slash states. *)
Definition file_state (s : string) : option (list string) :=
  match s with
  | String c t =>
      if is_code 47 c || is_code 92 c then
        match t with
        | String c' t' =>
            if is_code 47 c' || is_code 92 c' then file_host_state t'
            else Some (path_state true true t [] "")
        | EmptyString => Some (path_state true true t [] "")
        end
      else Some (path_state true true s [] "")
  | EmptyString => Some (path_state true true s [] "")
  end.

(** The opaque path state. *)
Fixpoint opaque_path_state (s : string) : string :=
  match s with
  | EmptyString => ""
  | String c t =>
      if is_code 63 c || is_code 35 c then ""
      else if is_code 32 c then
        (if head_is (fun d => is_code 63 d || is_code 35 d) t then "%20" else " ")
        ++ opaque_path_state t
      else percent_encode c0_control_set c ++ opaque_path_state t
  end.

Definition invalid_url : Thrown := TypeError "Invalid URL".

(** [new URL(input)], reduced to its [pathname]. *)
Definition URL (input : string) : outcome URLObject :=
  let input := remove_tab_newline (strip_trailing (strip_leading input)) in
  match scheme_state input with
  | None => Throw invalid_url
  | Some (scheme, rest) =>
      let segments :=
        if String.eqb scheme "file" then
          option_map serialize_path (file_state rest)
        else if special_scheme scheme then
          option_map serialize_path (authority_state host_parser true false (ignore_slashes rest))
        else
          match rest with
          | String c t =>
              if is_code 47 c then
                match t with
                | String c' t' =>
                    if is_code 47 c' then
                      option_map serialize_path (authority_state host_parser false false t')
                    else Some (serialize_path (path_state false false t [] ""))
                | EmptyString => Some (serialize_path (path_state false false t [] ""))
                end
              else Some (opaque_path_state rest)
          | EmptyString => Some (opaque_path_state rest)
          end in
      match segments with
      | Some p => Return {| pathname := p |}
      | None => Throw invalid_url
      end
  end.

End Constructor.

(** A host parser for the examples: it accepts the texts made of ASCII
    letters, digits, hyphens and dots, and nothing else. *)
Definition plain_host (isOpaque : bool) (input : string) : bool :=
  all (fun c => ascii_alpha c || ascii_digit c || is_one_of [45; 46] c) input.

End Whatwg.

(* ================================================================== *)
(** ** A runtime and pages for the examples *)

Module Sample.

Import Whatwg.

Definition json_space (c : ascii) : bool := is_one_of [32; 9; 10; 13] c.

Fixpoint skip_space (s : string) : string :=
  match s with
  | String c t => if json_space c then skip_space t else s
  | EmptyString => ""
  end.

Definition unescape (c : ascii) : option ascii :=
  let n := code c in
  if Nat.eqb n 34 || Nat.eqb n 92 || Nat.eqb n 47 then Some c
  else if Nat.eqb n 98 then Some (ascii_of_nat 8)
  else if Nat.eqb n 102 then Some (ascii_of_nat 12)
  else if Nat.eqb n 110 then Some (ascii_of_nat 10)
  else if Nat.eqb n 114 then Some (ascii_of_nat 13)
  else if Nat.eqb n 116 then Some (ascii_of_nat 9)
  else None.

Definition cons_char (c : ascii) (r : option (string * string)) : option (string * string) :=
  match r with
  | Some (text, rest) => Some (String c text, rest)
  | None => None
  end.

(** A string literal after its opening quote: the text and what follows
    the closing quote. *)
Fixpoint read_string (s : string) : option (string * string) :=
  match s with
  | EmptyString => None
  | String c t =>
      if is_code 34 c then Some ("", t)
      else if is_code 92 c then
        match t with
        | String e t' =>
            match unescape e with
            | Some ch => cons_char ch (read_string t')
            | None => None
            end
        | EmptyString => None
        end
      else if Nat.ltb (code c) 32 then None
      else cons_char c (read_string t)
  end.

(** A later member of the same name replaces the value of the earlier one. *)
Fixpoint set_field (k : string) (v : JSValue) (fields : list (string * JSValue)) : list (string * JSValue) :=
  match fields with
  | [] => [(k, v)]
  | (k', v') :: rest =>
      if String.eqb k k' then (k', v) :: rest else (k', v') :: set_field k v rest
  end.

Definition read_literal (s : string) : option (JSValue * string) :=
  if String.prefix "true" s then Some (JBool true, drop 4 s)
  else if String.prefix "false" s then Some (JBool false, drop 5 s)
  else if String.prefix "null" s then Some (JNull, drop 4 s)
  else None.

(** A JSON reader for texts without numbers and without [\u] escapes. *)
Fixpoint read_value (fuel : nat) (s : string) {struct fuel} : option (JSValue * string) :=
  match fuel with
  | O => None
  | S fuel' =>
      match skip_space s with
      | String c t =>
          if is_code 34 c then
            match read_string t with
            | Some (text, rest) => Some (JString text, rest)
            | None => None
            end
          else if is_code 123 c then
            match skip_space t with
            | String d t' =>
                if is_code 125 d then Some (JObject [], t')
                else read_members fuel' t []
            | EmptyString => None
            end
          else if is_code 91 c then
            match skip_space t with
            | String d t' =>
                if is_code 93 d then Some (JArray [], t')
                else read_elements fuel' t []
            | EmptyString => None
            end
          else read_literal (String c t)
      | EmptyString => None
      end
  end
with read_members (fuel : nat) (s : string) (acc : list (string * JSValue)) {struct fuel} : option (JSValue * string) :=
  match fuel with
  | O => None
  | S fuel' =>
      match skip_space s with
      | String q t =>
          if is_code 34 q then
            match read_string t with
            | Some (key, rest) =>
                match skip_space rest with
                | String colon rest' =>
                    if is_code 58 colon then
                      match read_value fuel' rest' with
                      | Some (v, rest'') =>
                          match skip_space rest'' with
                          | String d u =>
                              if is_code 44 d then read_members fuel' u (set_field key v acc)
                              else if is_code 125 d then Some (JObject (set_field key v acc), u)
                              else None
                          | EmptyString => None
                          end
                      | None => None
                      end
                    else None
                | EmptyString => None
                end
            | None => None
            end
          else None
      | EmptyString => None
      end
  end
with read_elements (fuel : nat) (s : string) (acc : list JSValue) {struct fuel} : option (JSValue * string) :=
  match fuel with
  | O => None
  | S fuel' =>
      match read_value fuel' s with
      | Some (v, rest) =>
          match skip_space rest with
          | String d u =>
              if is_code 44 d then read_elements fuel' u (acc ++ [v])%list
              else if is_code 93 d then Some (JArray (acc ++ [v])%list, u)
              else None
          | EmptyString => None
          end
      | None => None
      end
  end.

Definition syntax_error : Error := {| message := "Unexpected token in JSON" |}.

Definition JSON_parse (text : string) : outcome JSValue :=
  match read_value (S (String.length text)) text with
  | Some (v, rest) =>
      match skip_space rest with
      | EmptyString => Return v
      | _ => Throw (Thrown_object syntax_error)
      end
  | None => Throw (Thrown_object syntax_error)
  end.

(** The [URL] constructor of the examples. *)
Definition URL : string -> outcome URLObject := Whatwg.URL plain_host.

Definition dq : string := String "034" "".

(** A page whose player is configured in an inline script and in a global,
    with a relative stream reference in an attribute. *)
Definition script_text : string :=
  "var src = 'https://example.com/video/master.m3u8';".

Definition player_config : string :=
  "{" ++ dq ++ "file" ++ dq ++ ":" ++ dq
  ++ "https://cdn.example.com/live/index.m3u8?token=abc" ++ dq ++ "}".

Definition page_html : string :=
  "<head><script>" ++ script_text ++ "</script></head><body><video data-src="
  ++ dq ++ "stream/relative.m3u8" ++ dq ++ "></video></body>".

Definition page : Document :=
  {| all_elements :=
       [ {| localName := "script"; attributes := [];
            textContent := script_text; innerText := script_text |};
         {| localName := "video"; attributes := [("data-src", "stream/relative.m3u8")];
            textContent := ""; innerText := "" |} ];
     window := fun name =>
       if String.eqb name "jwplayer" then Return (Truthy (Return None))
       else if String.eqb name "player" then Return (Truthy (Return (Some player_config)))
       else Return Falsy;
     documentElement := Some page_html |}.

Definition page_traffic : list NetEvent :=
  [ Request "document" "https://example.com/watch";
    Response "https://example.com/watch" [("content-type", "text/html")];
    Request "image" "https://example.com/poster.png";
    Request "xhr" "https://cdn.example.com/live/index.m3u8?token=abc";
    Response "https://cdn.example.com/live/index.m3u8?token=abc"
      [("content-type", "application/vnd.apple.mpegurl")];
    Response "https://cdn.example.com/live/playlist"
      [("content-type", "application/vnd.apple.mpegurl")];
    Request "fetch" "https://example.com/api?file=.m3u8" ].

(** An invocation in which every call succeeds. *)
Definition world : World :=
  {| chromium_executablePath := Return "/tmp/chromium";
     puppeteer_launch := Return tt;
     browser_newPage := Return tt;
     page_setUserAgent := Return tt;
     page_setRequestInterception := Return tt;
     page_goto := (page_traffic, Return tt);
     page_waitForTimeout := ([], Return tt);
     page_evaluate := ([], Return page);
     browser_close := Return tt;
     Date_toISOString := "2024-01-01T00:00:00.000Z" |}.

(** The same page when navigation runs into its timeout. *)
Definition navigation_timeout : Error :=
  {| message := "Navigation timeout of 25000 ms exceeded" |}.

Definition world_timeout : World :=
  {| chromium_executablePath := Return "/tmp/chromium";
     puppeteer_launch := Return tt;
     browser_newPage := Return tt;
     page_setUserAgent := Return tt;
     page_setRequestInterception := Return tt;
     page_goto := (page_traffic, Throw (Thrown_object navigation_timeout));
     page_waitForTimeout := ([], Return tt);
     page_evaluate := ([], Return page);
     browser_close := Return tt;
     Date_toISOString := "2024-01-01T00:00:00.000Z" |}.

Definition target : JSValue := JString "https://example.com/watch".

(** A page without any manifest reference. *)
Definition empty_page : Document :=
  {| all_elements := [];
     window := fun _ => Return Falsy;
     documentElement := Some "<head></head><body></body>" |}.

Definition world_empty : World :=
  {| chromium_executablePath := Return "/tmp/chromium";
     puppeteer_launch := Return tt;
     browser_newPage := Return tt;
     page_setUserAgent := Return tt;
     page_setRequestInterception := Return tt;
     page_goto := ([Request "document" "https://example.com/watch"], Return tt);
     page_waitForTimeout := ([], Return tt);
     page_evaluate := ([], Return empty_page);
     browser_close := Return tt;
     Date_toISOString := "2024-01-01T00:00:00.000Z" |}.

Definition get_event (url : string) : Event :=
  {| httpMethod := "GET"; queryStringParameters := Some [("url", url)]; body := None |}.

Definition post_event (text : option string) : Event :=
  {| httpMethod := "POST"; queryStringParameters := None; body := text |}.

Definition options_event : Event :=
  {| httpMethod := "OPTIONS"; queryStringParameters := None; body := None |}.

(** A page whose script holds a comma-separated list of manifest URLs. *)
Definition list_script_text : string :=
  "var sources = 'https://example.com/video/low.m3u8,https://example.com/video/master.m3u8';".

Definition list_page : Document :=
  {| all_elements :=
       [ {| localName := "script"; attributes := [];
            textContent := list_script_text; innerText := list_script_text |} ];
     window := fun _ => Return Falsy;
     documentElement :=
       Some ("<head><script>" ++ list_script_text ++ "</script></head><body></body>") |}.

(** The first sample invocation when closing the browser fails. *)
Definition target_closed : Error := {| message := "Protocol error: Target closed" |}.

Definition world_close_fails : World :=
  {| chromium_executablePath := chromium_executablePath world;
     puppeteer_launch := puppeteer_launch world;
     browser_newPage := browser_newPage world;
     page_setUserAgent := page_setUserAgent world;
     page_setRequestInterception := page_setRequestInterception world;
     page_goto := page_goto world;
     page_waitForTimeout := page_waitForTimeout world;
     page_evaluate := page_evaluate world;
     browser_close := Throw (Thrown_object target_closed);
     Date_toISOString := Date_toISOString world |}.

(** A page that replaces [document.querySelectorAll] by a function that
    throws [null]: the first statement of the evaluated function throws it,
    and [page.evaluate] rejects with that value. *)
Definition world_throws_null : World :=
  {| chromium_executablePath := chromium_executablePath world;
     puppeteer_launch := puppeteer_launch world;
     browser_newPage := browser_newPage world;
     page_setUserAgent := page_setUserAgent world;
     page_setRequestInterception := page_setRequestInterception world;
     page_goto := page_goto world;
     page_waitForTimeout := page_waitForTimeout world;
     page_evaluate := ([], Throw Thrown_null);
     browser_close := browser_close world;
     Date_toISOString := Date_toISOString world |}.

(** The context object of the platform. *)
Definition context : Context := {| callbackWaitsForEmptyEventLoop := true |}.

(** A body whose [url] is an array that does not convert to a string. *)
Definition unprintable_body : string :=
  "{" ++ dq ++ "url" ++ dq ++ ":[" ++ dq ++ "https://example.com/watch" ++ dq
  ++ ",{" ++ dq ++ "toString" ++ dq ++ ":" ++ dq ++ "x" ++ dq ++ "}]}".

End Sample.

(* ================================================================== *)
(** ** Notions used in the statements *)

(** All the network events of one invocation that reach the hooks before
    the result is computed. *)
Definition traffic (w : World) : list NetEvent :=
  (fst (page_goto w) ++ fst (page_waitForTimeout w) ++ fst (page_evaluate w))%list.

(** Every call up to the scan returns, and the scan yields [pageLinks]. *)
Definition scan_returns (w : World) (pageLinks : list string) : Prop :=
  (exists path, chromium_executablePath w = Return path) /\
  puppeteer_launch w = Return tt /\
  browser_newPage w = Return tt /\
  page_setUserAgent w = Return tt /\
  page_setRequestInterception w = Return tt /\
  snd (page_goto w) = Return tt /\
  snd (page_waitForTimeout w) = Return tt /\
  exists doc, snd (page_evaluate w) = Return doc /\
              Scanner.pageFunction doc = Return pageLinks.

(** How a step may change the session: the browser handle is kept, the link
    set stays duplicate-free, and the calls added do not close the browser. *)
Definition frame (s s1 : Session) : Prop :=
  (browser s = true -> browser s1 = true) /\
  (NoDup (m3u8Links s) -> NoDup (m3u8Links s1)) /\
  exists ops, trace s1 = (trace s ++ ops)%list /\ ~ In Browser_close ops.

Definition framed {A} (m : M A) : Prop := forall s, frame s (fst (m s)).

(** The constructor does not make up the marker: a pathname it returns for
    [text] holds the marker only when [text] does. *)
Definition marker_faithful (URL : string -> outcome URLObject) (text : string) : Prop :=
  forall url, URL text = Return url ->
    includes (pathname url) marker = true -> includes text marker = true.

(** [n] code units can be taken from [s] and all of them are in the class. *)
Definition consumes (s : string) (n : nat) : Prop :=
  n <= String.length s /\ all Pattern.url_char (take n s) = true.

(** A text ends, or begins, where a URL cannot go on. *)
Definition left_delimited (pre : string) : Prop :=
  pre = "" \/ last_is (fun c => negb (Pattern.url_char c)) pre = true.

Definition right_delimited (post : string) : Prop :=
  post = "" \/ head_is (fun c => negb (Pattern.url_char c)) post = true.

(** The manifest URL of the script-text example. *)
Definition master : string := "https://example.com/video/master.m3u8".

(** The text has no occurrence of the marker. *)
Definition marker_free (s : string) : Prop := includes s marker = false.

(** The path state's buffer for a piece of input. *)
Fixpoint encode_piece (piece : string) : string :=
  match piece with
  | EmptyString => ""
  | String c t => Whatwg.percent_encode Whatwg.path_set c ++ encode_piece t
  end.

(** What the request hook answers to an event: the decision on a request,
    nothing on a response. *)
Definition decisions (events : list NetEvent) : list Op :=
  flat_map (fun ev =>
    match ev with
    | Request resourceType url =>
        if existsb (String.eqb resourceType) Observer.blocked
        then [Request_abort url] else [Request_continue url]
    | Response _ _ => []
    end) events.

(** The event makes a hook add [url] to the link set. *)
Definition captures (ev : NetEvent) (url : string) : Prop :=
  match ev with
  | Request _ u => u = url /\ includes u marker = true
  | Response u responseHeaders =>
      u = url /\
      (includes u marker
       || includes (Observer.content_type responseHeaders) "application/vnd.apple.mpegurl"
       || includes (Observer.content_type responseHeaders) "application/x-mpegurl") = true
  end.

(** The text a global contributes to the scan, if any: a failure to read
    or to serialise it counts like its absence. *)
Definition config_text (v : outcome WindowValue) : option string :=
  match v with
  | Return (Truthy (Return (Some configStr))) => Some configStr
  | _ => None
  end.

(** The target a request asks for, by its fields: the [url] query parameter
    of a [GET]; the [url] member of the body of a [POST] once parsed, none
    when that is not an object; none for any other method. *)
Definition requested (JSON_parse : string -> outcome JSValue) (event : Event)
    (target : option JSValue) : Prop :=
  (httpMethod event = "GET" /\
   target = match queryStringParameters event with
            | Some params => option_map JString (lookup "url" params)
            | None => None
            end) \/
  (httpMethod event = "POST" /\
   exists parsed,
     JSON_parse (body_text event) = Return parsed /\ parsed <> JNull /\
     target = match parsed with
              | JObject fields => lookup "url" fields
              | _ => None
              end) \/
  (~ In (httpMethod event) ["OPTIONS"; "GET"; "POST"] /\ target = None).

(** The target URL a request carries, in the words of the specification:
    the [url] query parameter on a read-style invocation, the field named
    [url] of the JSON body on a write-style one. *)
Definition carried_url (JSON_parse : string -> outcome JSValue) (event : Event) : option JSValue :=
  if String.eqb (httpMethod event) "GET" then
    match queryStringParameters event with
    | Some params => option_map JString (lookup "url" params)
    | None => None
    end
  else if String.eqb (httpMethod event) "POST" then
    match body event with
    | Some text =>
        match JSON_parse text with
        | Return (JObject fields) => lookup "url" fields
        | _ => None
        end
    | None => None
    end
  else None.

(** A text the pattern is written for: [http] or [https] in any case,
    [://], one or more code units of the class, and the marker in any case. *)
Definition manifest_text (text : string) : Prop :=
  exists scheme body ext,
    text = scheme ++ "://" ++ body ++ ext /\
    (Pattern.literal "http" scheme = Some "" \/ Pattern.literal "https" scheme = Some "") /\
    body <> "" /\ all Pattern.url_char body = true /\
    Pattern.literal marker ext = Some "".

(* ================================================================== *)
(** * Properties *)

(** ** Strings *)

Lemma prefix_append (p s : string) :
  String.prefix p s = true <-> exists t, s = p ++ t.
Proof.
  revert s; induction p as [|c p IH]; intros s.
  - split; [intros _; now exists s | intros _; destruct s; reflexivity].
  - destruct s as [|d s]; simpl.
    + split; [discriminate | intros [t Ht]; discriminate].
    + destruct (Ascii.ascii_dec c d) as [->|Hcd].
      * rewrite IH. split; intros [t Ht]; exists t.
        -- now rewrite Ht.
        -- now inversion Ht.
      * split; [discriminate | intros [t Ht]; inversion Ht; subst; now elim Hcd].
Qed.

Lemma append_assoc (a b c : string) : (a ++ b) ++ c = a ++ (b ++ c).
Proof. induction a as [|x a IH]; simpl; [reflexivity | now rewrite IH]. Qed.

Lemma append_empty_r (a : string) : a ++ "" = a.
Proof. induction a as [|x a IH]; simpl; [reflexivity | now rewrite IH]. Qed.

(** [includes] is the substring test. *)
Lemma includes_spec (s sub : string) :
  includes s sub = true <-> exists pre post, s = pre ++ sub ++ post.
Proof.
  induction s as [|c s IH]; cbn [includes].
  - rewrite orb_false_r, prefix_append. split.
    + intros [t Ht]. now exists "", t.
    + intros [pre [post H]]. destruct pre; [now exists post | discriminate].
  - rewrite orb_true_iff, IH, prefix_append. split.
    + intros [[t Ht] | [pre [post H]]].
      * now exists "", t.
      * exists (String c pre), post. simpl. now rewrite H.
    + intros [pre [post H]]. destruct pre as [|d pre]; simpl in H.
      * left. now exists post.
      * right. inversion H. now exists pre, post.
Qed.

Lemma includes_false_substring (pre sub post m : string) :
  includes (pre ++ sub ++ post) m = false -> includes sub m = false.
Proof.
  intros H. destruct (includes sub m) eqn:E; [|reflexivity].
  apply includes_spec in E. destruct E as [a [b ->]].
  rewrite <- H. symmetry. apply includes_spec.
  exists (pre ++ a), (b ++ post). now rewrite !append_assoc.
Qed.

(** ** Sets *)

Lemma has_In (s : JSSet.t) (x : string) : JSSet.has s x = true <-> In x s.
Proof.
  unfold JSSet.has. rewrite existsb_exists. split.
  - intros [y [Hy E]]. apply String.eqb_eq in E. now subst.
  - intros H. exists x. split; [assumption | apply String.eqb_refl].
Qed.

Lemma In_add (s : JSSet.t) (x y : string) :
  In y (JSSet.add s x) <-> In y s \/ y = x.
Proof.
  unfold JSSet.add. destruct (JSSet.has s x) eqn:E.
  - apply has_In in E. split; [now left | intros [H| ->]; assumption].
  - rewrite in_app_iff. simpl. intuition.
Qed.

Lemma NoDup_add (s : JSSet.t) (x : string) : NoDup s -> NoDup (JSSet.add s x).
Proof.
  intros H. unfold JSSet.add. destruct (JSSet.has s x) eqn:E; [assumption|].
  assert (~ In x s) as Hx by (rewrite <- has_In, E; discriminate).
  clear E. induction H as [|a l Ha Hl IH]; simpl.
  - constructor; [intros [] | constructor].
  - constructor.
    + rewrite in_app_iff. simpl. intros [H1 | [H1 | []]]; [contradiction | subst].
      apply Hx. now left.
    + apply IH. intros H1. apply Hx. now right.
Qed.

Lemma In_add_all (xs : list string) (s : JSSet.t) (y : string) :
  In y (JSSet.add_all s xs) <-> In y s \/ In y xs.
Proof.
  unfold JSSet.add_all. revert s. induction xs as [|x xs IH]; intros s; simpl.
  - intuition.
  - rewrite IH, In_add. intuition.
Qed.

Lemma NoDup_add_all (xs : list string) (s : JSSet.t) :
  NoDup s -> NoDup (JSSet.add_all s xs).
Proof.
  unfold JSSet.add_all. revert s. induction xs as [|x xs IH]; intros s H; simpl.
  - assumption.
  - apply IH, NoDup_add, H.
Qed.

(** ** The session monad *)

Lemma bind_Return {A B} (m : M A) (k : A -> M B) s s' b :
  bind m k s = (s', Return b) ->
  exists a s1, m s = (s1, Return a) /\ k a s1 = (s', Return b).
Proof.
  unfold bind. destruct (m s) as [s1 [a|e]]; intros H.
  - now exists a, s1.
  - discriminate.
Qed.

Lemma call_Return {A} op (r : outcome A) s s' a :
  call op r s = (s', Return a) -> r = Return a /\ s' = log op s.
Proof.
  unfold call, bind, modify, lift. simpl. intros H. inversion H. now split.
Qed.

Lemma await_Return {A} op (r : list NetEvent * outcome A) s s' a :
  await op r s = (s', Return a) ->
  snd r = Return a /\ s' = Observer.deliver_all (fst r) (log op s).
Proof.
  unfold await, bind, modify, lift. simpl. intros H. inversion H. now split.
Qed.

Lemma modify_Return f s s' a : modify f s = (s', Return a) -> s' = f s.
Proof. unfold modify. intros H. now inversion H. Qed.

Lemma lift_Return {A} (r : outcome A) s s' a :
  lift r s = (s', Return a) -> r = Return a /\ s' = s.
Proof. unfold lift. intros H. now inversion H. Qed.

Lemma get_Return {A} (f : Session -> A) s s' a :
  get f s = (s', Return a) -> a = f s /\ s' = s.
Proof. unfold get. intros H. now inversion H. Qed.

Lemma ret_Return {A} (a b : A) s s' : ret a s = (s', Return b) -> b = a /\ s' = s.
Proof. unfold ret. intros H. now inversion H. Qed.

Lemma bind_call_Return {A B} op (r : outcome A) (k : A -> M B) a s :
  r = Return a -> bind (call op r) k s = k a (log op s).
Proof. intros ->. reflexivity. Qed.

Lemma bind_modify {B} f (k : unit -> M B) s : bind (modify f) k s = k tt (f s).
Proof. reflexivity. Qed.

Lemma bind_await_Return {A B} op (r : list NetEvent * outcome A) (k : A -> M B) a s :
  snd r = Return a ->
  bind (await op r) k s = k a (Observer.deliver_all (fst r) (log op s)).
Proof. intros H. unfold await, bind, modify, lift. simpl. now rewrite H. Qed.

Lemma bind_lift_Return {A B} (r : outcome A) (k : A -> M B) a s :
  r = Return a -> bind (lift r) k s = k a s.
Proof. intros ->. reflexivity. Qed.

Lemma bind_get {A B} (f : Session -> A) (k : A -> M B) s : bind (get f) k s = k (f s) s.
Proof. reflexivity. Qed.

Lemma frame_refl s : frame s s.
Proof.
  repeat split; auto. exists []. split; [now rewrite app_nil_r | intros []].
Qed.

Lemma frame_trans s1 s2 s3 : frame s1 s2 -> frame s2 s3 -> frame s1 s3.
Proof.
  intros (B1 & N1 & o1 & T1 & C1) (B2 & N2 & o2 & T2 & C2).
  repeat split; auto.
  exists (o1 ++ o2)%list. split.
  - now rewrite T2, T1, app_assoc.
  - rewrite in_app_iff. tauto.
Qed.

Lemma frame_log op s : op <> Browser_close -> frame s (log op s).
Proof.
  intros H. repeat split; auto. exists [op]. split; [reflexivity|].
  intros [E|[]]. now apply H.
Qed.

Lemma frame_add_link url s : frame s (add_link url s).
Proof.
  repeat split; auto.
  - simpl. apply NoDup_add.
  - exists []. split; [simpl; now rewrite app_nil_r | intros []].
Qed.

Lemma frame_set_browser s : frame s (set_browser s).
Proof.
  repeat split; auto. exists []. split; [simpl; now rewrite app_nil_r | intros []].
Qed.

Lemma frame_deliver ev s : frame s (Observer.deliver s ev).
Proof.
  destruct ev as [resourceType url | url responseHeaders]; simpl.
  - unfold Observer.on_request.
    assert (frame s (if includes url marker then add_link url s else s)) as H
      by (destruct (includes url marker); [apply frame_add_link | apply frame_refl]).
    destruct (existsb _ _); (eapply frame_trans; [exact H | apply frame_log; discriminate]).
  - unfold Observer.on_response.
    destruct (_ || _); [apply frame_add_link | apply frame_refl].
Qed.

Lemma frame_deliver_all events s : frame s (Observer.deliver_all events s).
Proof.
  unfold Observer.deliver_all. revert s.
  induction events as [|ev events IH]; intros s; simpl.
  - apply frame_refl.
  - eapply frame_trans; [apply frame_deliver | apply IH].
Qed.

Lemma frame_add_links links s :
  frame s (fold_left (fun s link => add_link link s) links s).
Proof.
  revert s. induction links as [|l links IH]; intros s; simpl.
  - apply frame_refl.
  - eapply frame_trans; [apply frame_add_link | apply IH].
Qed.

Lemma framed_ret {A} (a : A) : framed (ret a).
Proof. intros s. apply frame_refl. Qed.

Lemma framed_lift {A} (r : outcome A) : framed (lift r).
Proof. intros s. apply frame_refl. Qed.

Lemma framed_get {A} (f : Session -> A) : framed (get f).
Proof. intros s. apply frame_refl. Qed.

Lemma framed_modify f : (forall s, frame s (f s)) -> framed (modify f).
Proof. intros H s. apply H. Qed.

Lemma framed_bind {A B} (m : M A) (k : A -> M B) :
  framed m -> (forall a, framed (k a)) -> framed (bind m k).
Proof.
  intros Hm Hk s. unfold bind. specialize (Hm s).
  destruct (m s) as [s1 [a|e]]; simpl in *.
  - eapply frame_trans; [exact Hm | apply Hk].
  - exact Hm.
Qed.

Lemma framed_call {A} op (r : outcome A) : op <> Browser_close -> framed (call op r).
Proof.
  intros H. unfold call. apply framed_bind.
  - apply framed_modify. intros s. now apply frame_log.
  - intros _. apply framed_lift.
Qed.

Lemma framed_await {A} op (r : list NetEvent * outcome A) :
  op <> Browser_close -> framed (await op r).
Proof.
  intros H. unfold await. apply framed_bind.
  - apply framed_modify. intros s. now apply frame_log.
  - intros _. apply framed_bind.
    + apply framed_modify. intros s. apply frame_deliver_all.
    + intros _. apply framed_lift.
Qed.

(** Follows the binds of a computation built from the primitives above. *)
Ltac framed_steps :=
  repeat (first
    [ apply framed_call; discriminate
    | apply framed_await; discriminate
    | apply framed_bind; [| intros ?]
    | apply framed_modify; intros ?; first [apply frame_set_browser | apply frame_add_links]
    | apply framed_lift | apply framed_get | apply framed_ret ]).

(** ** What the hooks and the merge do to the link set *)

Lemma links_log op s : m3u8Links (log op s) = m3u8Links s.
Proof. reflexivity. Qed.

Lemma links_add_links links s :
  m3u8Links (fold_left (fun s link => add_link link s) links s)
  = JSSet.add_all (m3u8Links s) links.
Proof.
  unfold JSSet.add_all. revert s.
  induction links as [|l links IH]; intros s; simpl; [reflexivity | now rewrite IH].
Qed.

Lemma links_deliver_mono ev s x :
  In x (m3u8Links s) -> In x (m3u8Links (Observer.deliver s ev)).
Proof.
  intros H. destruct ev as [resourceType url | url responseHeaders]; simpl.
  - unfold Observer.on_request.
    destruct (includes url marker), (existsb _ _); simpl; try apply In_add; auto.
  - unfold Observer.on_response.
    destruct (_ || _); simpl; try apply In_add; auto.
Qed.

Lemma links_deliver_all_mono events s x :
  In x (m3u8Links s) -> In x (m3u8Links (Observer.deliver_all events s)).
Proof.
  unfold Observer.deliver_all. revert s.
  induction events as [|ev events IH]; intros s H; simpl; [assumption|].
  apply IH, links_deliver_mono, H.
Qed.

Lemma links_deliver_congr ev s1 s2 :
  m3u8Links s1 = m3u8Links s2 ->
  m3u8Links (Observer.deliver s1 ev) = m3u8Links (Observer.deliver s2 ev).
Proof.
  intros H. destruct ev as [resourceType url | url responseHeaders]; simpl.
  - unfold Observer.on_request.
    destruct (includes url marker), (existsb _ _); simpl; now rewrite H.
  - unfold Observer.on_response.
    destruct (_ || _); simpl; now rewrite H.
Qed.

Lemma links_deliver_all_congr events s1 s2 :
  m3u8Links s1 = m3u8Links s2 ->
  m3u8Links (Observer.deliver_all events s1) = m3u8Links (Observer.deliver_all events s2).
Proof.
  unfold Observer.deliver_all. revert s1 s2.
  induction events as [|ev events IH]; intros s1 s2 H; simpl; [assumption|].
  apply IH, links_deliver_congr, H.
Qed.

Lemma deliver_all_app e1 e2 s :
  Observer.deliver_all (e1 ++ e2) s = Observer.deliver_all e2 (Observer.deliver_all e1 s).
Proof. unfold Observer.deliver_all. apply fold_left_app. Qed.

(** ** The extraction routine *)

Section Extraction.

Variable URL : string -> outcome URLObject.

Lemma is_manifest_url_true link :
  is_manifest_url URL link = true <->
  exists url, URL link = Return url /\ includes (pathname url) marker = true.
Proof.
  unfold is_manifest_url. destruct (URL link) as [url|e].
  - split; [intros H; now exists url | intros [u [E H]]; now inversion E; subst].
  - split; [discriminate | intros [u [E _]]; discriminate].
Qed.

Lemma framed_extract_body w t : framed (extract_body URL w t).
Proof.
  unfold extract_body.
  framed_steps.
Qed.

(** The one way the body of the [try] block returns. *)
Lemma extract_body_Return w t s s' l :
  extract_body URL w t s = (s', Return l) ->
  exists pageLinks,
    scan_returns w pageLinks /\
    m3u8Links s' = JSSet.add_all (m3u8Links (Observer.deliver_all (traffic w) s)) pageLinks /\
    l = final_filter URL (m3u8Links s').
Proof.
  unfold extract_body. intros H.
  apply bind_Return in H. destruct H as (path & s1 & H1 & H). apply call_Return in H1.
  apply bind_Return in H. destruct H as ([] & s2 & H2 & H). apply call_Return in H2.
  apply bind_Return in H. destruct H as ([] & s3 & H3 & H). apply modify_Return in H3.
  apply bind_Return in H. destruct H as ([] & s4 & H4 & H). apply call_Return in H4.
  apply bind_Return in H. destruct H as ([] & s5 & H5 & H). apply call_Return in H5.
  apply bind_Return in H. destruct H as ([] & s6 & H6 & H). apply call_Return in H6.
  apply bind_Return in H. destruct H as ([] & s7 & H7 & H). apply await_Return in H7.
  apply bind_Return in H. destruct H as ([] & s8 & H8 & H). apply await_Return in H8.
  apply bind_Return in H. destruct H as (doc & s9 & H9 & H). apply await_Return in H9.
  apply bind_Return in H. destruct H as (pageLinks & s10 & H10 & H). apply lift_Return in H10.
  apply bind_Return in H. destruct H as ([] & s11 & H11 & H). apply modify_Return in H11.
  apply bind_Return in H. destruct H as (links & s12 & H12 & H). apply get_Return in H12.
  apply ret_Return in H.
  exists pageLinks.
  destruct H1 as [R1 E1], H2 as [R2 E2], H4 as [R4 E4], H5 as [R5 E5], H6 as [R6 E6],
    H7 as [R7 E7], H8 as [R8 E8], H9 as [R9 E9], H10 as [P10 E10], H12 as [L12 E12],
    H as [Hl Hs].
  subst. split; [| split].
  - unfold scan_returns. repeat split; eauto.
  - rewrite links_add_links. f_equal.
    unfold traffic. rewrite !deliver_all_app.
    repeat (apply links_deliver_all_congr; rewrite ?links_log).
    reflexivity.
  - reflexivity.
Qed.

(** With a launched browser the body is followed by exactly one
    [browser.close()], whose failure replaces the result. *)
Lemma extract_unfold w t s :
  extractM3U8WithBrowser URL w t s =
  let (s1, r) := extract_body URL w t s in
  if browser s1 then
    match browser_close w with
    | Return _ => (log Browser_close s1, r)
    | Throw e => (log Browser_close s1, Throw e)
    end
  else (s1, r).
Proof.
  unfold extractM3U8WithBrowser, try_finally, extract_finally, bind, get, call, modify, lift, ret.
  destruct (extract_body URL w t s) as [s1 r].
  destruct (browser s1); [destruct (browser_close w) as [[]|e] |]; reflexivity.
Qed.

Lemma extract_Return w t s s' l :
  extractM3U8WithBrowser URL w t s = (s', Return l) ->
  exists pageLinks,
    scan_returns w pageLinks /\
    m3u8Links s' = JSSet.add_all (m3u8Links (Observer.deliver_all (traffic w) s)) pageLinks /\
    l = final_filter URL (m3u8Links s').
Proof.
  rewrite extract_unfold.
  destruct (extract_body URL w t s) as [s1 r] eqn:E.
  destruct (browser s1); [destruct (browser_close w) as [[]|e] |]; intros H;
    inversion H; subst; clear H; try discriminate;
    apply extract_body_Return in E; exact E.
Qed.

(** When every call returns, so does the routine, whatever the candidates
    are. *)
Lemma extract_body_returns w t s pageLinks :
  scan_returns w pageLinks ->
  exists s', extract_body URL w t s = (s', Return (final_filter URL (m3u8Links s')))
             /\ browser s' = true.
Proof.
  intros ([path R1] & R2 & R3 & R4 & R5 & R6 & R7 & doc & R8 & R9).
  unfold extract_body.
  rewrite (bind_call_Return _ _ _ _ _ R1), (bind_call_Return _ _ _ _ _ R2), bind_modify,
    (bind_call_Return _ _ _ _ _ R3), (bind_call_Return _ _ _ _ _ R4),
    (bind_call_Return _ _ _ _ _ R5), (bind_await_Return _ _ _ _ _ R6),
    (bind_await_Return _ _ _ _ _ R7), (bind_await_Return _ _ _ _ _ R8),
    (bind_lift_Return _ _ _ _ R9), bind_modify, bind_get.
  eexists. split; [reflexivity|].
  match goal with
  | |- browser (fold_left _ _ ?s0) = true =>
      apply (frame_add_links pageLinks s0)
  end.
  repeat match goal with
  | |- browser (Observer.deliver_all ?e ?s0) = true => apply (frame_deliver_all e s0)
  | |- browser (log ?op ?s0) = true => change (browser s0 = true)
  end.
  reflexivity.
Qed.

Lemma extract_returns w t s pageLinks :
  scan_returns w pageLinks ->
  browser_close w = Return tt ->
  exists s', extractM3U8WithBrowser URL w t s
             = (s', Return (final_filter URL (m3u8Links s'))).
Proof.
  intros Hs Hc. rewrite extract_unfold.
  destruct (extract_body_returns w t s pageLinks Hs) as (s1 & -> & ->).
  rewrite Hc. exists (log Browser_close s1). reflexivity.
Qed.

(** A call that throws makes the routine throw. *)
Lemma extract_throws w t s e :
  chromium_executablePath w = Throw e \/ puppeteer_launch w = Throw e \/
  browser_newPage w = Throw e \/ page_setUserAgent w = Throw e \/
  page_setRequestInterception w = Throw e \/
  snd (page_goto w) = Throw e \/ snd (page_waitForTimeout w) = Throw e \/
  snd (page_evaluate w) = Throw e \/
  (exists doc, snd (page_evaluate w) = Return doc /\ Scanner.pageFunction doc = Throw e) ->
  exists e', snd (extractM3U8WithBrowser URL w t s) = Throw e'.
Proof.
  intros H.
  destruct (extractM3U8WithBrowser URL w t s) as [s' [l|e']] eqn:E; [| now exists e'].
  exfalso. apply extract_Return in E.
  destruct E as (pageLinks & ([path R1] & R2 & R3 & R4 & R5 & R6 & R7 & doc & R8 & R9) & _).
  destruct H as [H|[H|[H|[H|[H|[H|[H|[H|(doc' & H & H')]]]]]]]]; congruence.
Qed.

End Extraction.

(** ** The final filter *)

Lemma final_filter_In (URL : string -> outcome URLObject) links link :
  In link (final_filter URL links) <-> In link links /\ is_manifest_url URL link = true.
Proof. unfold final_filter. apply filter_In. Qed.

(** C5. The final filter step is idempotent: filtering a list that is
    already an output of the filter gives back the same list, entries and
    order unchanged, whatever the [URL] constructor answers. *)
Theorem C5_final_filter_idempotent (URL : string -> outcome URLObject) (links : list string) :
  final_filter URL (final_filter URL links) = final_filter URL links.
Proof.
  unfold final_filter. induction links as [|link links IH]; simpl.
  - reflexivity.
  - destruct (is_manifest_url URL link) eqn:E; simpl.
    + rewrite E. now rewrite IH.
    + exact IH.
Qed.

(** C1. Every string of the list returned by [extractM3U8WithBrowser]
    parses as a URL whose pathname contains [.m3u8].  The list is the final
    link set with exactly the failing candidates left out: a candidate that
    does not parse, or whose pathname lacks the marker (wherever else the
    marker stands in it), is absent from the result.  No candidate makes the
    routine fail: it returns whenever the calls on the browser do. *)
Theorem C1_result_holds_only_manifest_urls
    (URL : string -> outcome URLObject) (w : World) (targetUrl : JSValue) :
  (forall pageLinks,
     scan_returns w pageLinks -> browser_close w = Return tt ->
     exists s' result,
       extractM3U8WithBrowser URL w targetUrl initial = (s', Return result)) /\
  (forall s' result,
     extractM3U8WithBrowser URL w targetUrl initial = (s', Return result) ->
     (forall link, In link result ->
        exists url, URL link = Return url /\ includes (pathname url) marker = true) /\
     (forall candidate, In candidate (m3u8Links s') ->
        (forall e, URL candidate = Throw e -> ~ In candidate result) /\
        (forall url, URL candidate = Return url ->
           includes (pathname url) marker = false -> ~ In candidate result)) /\
     (forall candidate, In candidate (m3u8Links s') ->
        is_manifest_url URL candidate = true -> In candidate result)).
Proof.
  split.
  - intros pageLinks Hs Hc.
    destruct (extract_returns URL w targetUrl initial pageLinks Hs Hc) as [s' H].
    now exists s', (final_filter URL (m3u8Links s')).
  - intros s' result H. apply extract_Return in H.
    destruct H as (pageLinks & _ & _ & ->).
    split; [| split].
    + intros link Hin. apply final_filter_In in Hin.
      now apply is_manifest_url_true.
    + intros candidate _. split.
      * intros e E Hin. apply final_filter_In in Hin. destruct Hin as [_ Hin].
        unfold is_manifest_url in Hin. rewrite E in Hin. discriminate.
      * intros url E Hp Hin. apply final_filter_In in Hin. destruct Hin as [_ Hin].
        unfold is_manifest_url in Hin. rewrite E, Hp in Hin. discriminate.
    + intros candidate Hin Hm. apply final_filter_In. now split.
Qed.

Lemma C1_witness :
  extractM3U8WithBrowser Sample.URL Sample.world Sample.target initial
  = (fst (extractM3U8WithBrowser Sample.URL Sample.world Sample.target initial),
     Return ["https://cdn.example.com/live/index.m3u8?token=abc";
             "https://example.com/video/master.m3u8"]) /\
  In "stream/relative.m3u8"
     (m3u8Links (fst (extractM3U8WithBrowser Sample.URL Sample.world Sample.target initial))) /\
  ~ In "stream/relative.m3u8"
      ["https://cdn.example.com/live/index.m3u8?token=abc";
       "https://example.com/video/master.m3u8"] /\
  In "https://example.com/api?file=.m3u8"
     (m3u8Links (fst (extractM3U8WithBrowser Sample.URL Sample.world Sample.target initial))) /\
  ~ In "https://example.com/api?file=.m3u8"
      ["https://cdn.example.com/live/index.m3u8?token=abc";
       "https://example.com/video/master.m3u8"].
Proof.
  assert (extractM3U8WithBrowser Sample.URL Sample.world Sample.target initial
          = (fst (extractM3U8WithBrowser Sample.URL Sample.world Sample.target initial),
             Return ["https://cdn.example.com/live/index.m3u8?token=abc";
                     "https://example.com/video/master.m3u8"])) as E
    by (vm_compute; reflexivity).
  pose proof (proj2 (C1_result_holds_only_manifest_urls
                       Sample.URL Sample.world Sample.target) _ _ E) as H.
  split; [exact E | split; [| split; [| split]]].
  - vm_compute. tauto.
  - refine (proj1 (proj1 (proj2 H) "stream/relative.m3u8" _) Whatwg.invalid_url _).
    + vm_compute. tauto.
    + vm_compute. reflexivity.
  - vm_compute. tauto.
  - refine (proj2 (proj1 (proj2 H) "https://example.com/api?file=.m3u8" _)
              {| pathname := "/api" |} _ _).
    + vm_compute. tauto.
    + vm_compute. reflexivity.
    + vm_compute. reflexivity.
Defined.

(** ** Deduplication *)

(** C6. The returned list has no duplicate strings; in particular a link
    that the Traffic Observer put into the set and that the Content Scanner
    reported as well occurs exactly once in the list when it passes the
    final filter. *)
Theorem C6_result_has_no_duplicates
    (URL : string -> outcome URLObject) (w : World) (targetUrl : JSValue)
    (s' : Session) (result : list string) :
  extractM3U8WithBrowser URL w targetUrl initial = (s', Return result) ->
  NoDup result /\
  (forall doc pageLinks link,
     snd (page_evaluate w) = Return doc ->
     Scanner.pageFunction doc = Return pageLinks ->
     In link (m3u8Links (Observer.deliver_all (traffic w) initial)) ->
     In link pageLinks ->
     is_manifest_url URL link = true ->
     count_occ string_dec result link = 1).
Proof.
  intros H. apply extract_Return in H.
  destruct H as (pageLinks & _ & Hs & ->).
  assert (NoDup (final_filter URL (m3u8Links s'))) as Hnd.
  { unfold final_filter. apply NoDup_filter. rewrite Hs. apply NoDup_add_all.
    apply (frame_deliver_all (traffic w) initial). constructor. }
  split; [exact Hnd|].
  intros doc' pageLinks' link Hd' Hp' Ht Hl Hm.
  apply NoDup_count_occ'; [exact Hnd|].
  apply final_filter_In. split; [| exact Hm].
  rewrite Hs. apply In_add_all. now left.
Qed.

Lemma C6_witness :
  NoDup ["https://cdn.example.com/live/index.m3u8?token=abc";
         "https://example.com/video/master.m3u8"] /\
  count_occ string_dec
    ["https://cdn.example.com/live/index.m3u8?token=abc";
     "https://example.com/video/master.m3u8"]
    "https://cdn.example.com/live/index.m3u8?token=abc" = 1.
Proof.
  assert (extractM3U8WithBrowser Sample.URL Sample.world Sample.target initial
          = (fst (extractM3U8WithBrowser Sample.URL Sample.world Sample.target initial),
             Return ["https://cdn.example.com/live/index.m3u8?token=abc";
                     "https://example.com/video/master.m3u8"])) as E
    by (vm_compute; reflexivity).
  split.
  - exact (proj1 (C6_result_has_no_duplicates _ _ _ _ _ E)).
  - refine (proj2 (C6_result_has_no_duplicates _ _ _ _ _ E) Sample.page
              ["https://example.com/video/master.m3u8";
               "https://cdn.example.com/live/index.m3u8?token=abc";
               "stream/relative.m3u8"]
              "https://cdn.example.com/live/index.m3u8?token=abc" _ _ _ _ _).
    + reflexivity.
    + vm_compute. reflexivity.
    + vm_compute. tauto.
    + simpl. tauto.
    + vm_compute. reflexivity.
Defined.

(** ** The request hook *)

(** C3, as stated, fails: a request for an image whose URL contains the
    marker is aborted, and its URL enters the link set on account of that
    very request. *)
Lemma C3_blocked_request_is_a_candidate :
  In "image" Observer.blocked /\
  trace (Observer.on_request "image" "https://cdn.example.com/thumbs/live.m3u8.jpg" initial)
  = [Request_abort "https://cdn.example.com/thumbs/live.m3u8.jpg"] /\
  ~ In "https://cdn.example.com/thumbs/live.m3u8.jpg" (m3u8Links initial) /\
  In "https://cdn.example.com/thumbs/live.m3u8.jpg"
     (m3u8Links
        (Observer.on_request "image" "https://cdn.example.com/thumbs/live.m3u8.jpg" initial)).
Proof.
  split; [simpl; tauto | split; [reflexivity | split]].
  - intros [].
  - vm_compute. tauto.
Qed.

(** C3, amended. A request whose resource type is image, font or
    stylesheet is aborted and not continued; whether its URL becomes a
    candidate does not depend on the resource type: it is added to the link
    set exactly when it contains the marker. *)
Theorem C3_blocked_request_is_aborted (resourceType url : string) (s : Session) :
  In resourceType ["image"; "font"; "stylesheet"] ->
  trace (Observer.on_request resourceType url s) = (trace s ++ [Request_abort url])%list /\
  m3u8Links (Observer.on_request resourceType url s)
  = (if includes url marker then JSSet.add (m3u8Links s) url else m3u8Links s) /\
  browser (Observer.on_request resourceType url s) = browser s.
Proof.
  intros H. unfold Observer.on_request.
  assert (existsb (String.eqb resourceType) Observer.blocked = true) as ->.
  { apply existsb_exists. exists resourceType. split; [exact H | apply String.eqb_refl]. }
  destruct (includes url marker); repeat split.
Qed.

Lemma C3_witness :
  trace (Observer.on_request "font" "https://example.com/fonts/a.woff2" initial)
  = [Request_abort "https://example.com/fonts/a.woff2"] /\
  m3u8Links (Observer.on_request "font" "https://example.com/fonts/a.woff2" initial) = [].
Proof.
  pose proof (C3_blocked_request_is_aborted "font" "https://example.com/fonts/a.woff2" initial
                ltac:(simpl; tauto)) as H.
  split; [exact (proj1 H) | exact (proj1 (proj2 H))].
Defined.

(** ** Teardown *)

Lemma body_keeps_launched_browser
    (URL : string -> outcome URLObject) (w : World) (targetUrl : JSValue) path :
  chromium_executablePath w = Return path ->
  puppeteer_launch w = Return tt ->
  let s1 := fst (extract_body URL w targetUrl initial) in
  browser s1 = true /\ ~ In Browser_close (trace s1).
Proof.
  intros He Hl. unfold extract_body.
  rewrite (bind_call_Return _ _ _ path _ He), (bind_call_Return _ _ _ tt _ Hl), bind_modify.
  match goal with
  | |- context [fst (?m (set_browser ?s0))] =>
      assert (framed m) as Hf;
      [| specialize (Hf (set_browser s0)); set (s1 := fst (m (set_browser s0))) in * ]
  end.
  - framed_steps.
  - destruct Hf as (Hb & _ & ops & Ht & Hc). split.
    + apply Hb. reflexivity.
    + rewrite Ht. rewrite in_app_iff. intros [H|H]; [| now apply Hc].
      simpl in H. intuition discriminate.
Qed.

(** C7. Once the browser has been launched, every run of the routine ends
    with [browser.close()]: whatever happens afterwards (links found, none
    found, or any call throwing), the close call is the last thing done
    before the routine returns or lets the error through, and it is made
    exactly once. *)
Theorem C7_browser_closed_on_every_exit
    (URL : string -> outcome URLObject) (w : World) (targetUrl : JSValue) (path : string) :
  chromium_executablePath w = Return path ->
  puppeteer_launch w = Return tt ->
  exists ops,
    trace (fst (extractM3U8WithBrowser URL w targetUrl initial))
    = (ops ++ [Browser_close])%list /\
    ~ In Browser_close ops.
Proof.
  intros He Hl.
  destruct (body_keeps_launched_browser URL w targetUrl path He Hl) as [Hb Hc].
  rewrite extract_unfold.
  destruct (extract_body URL w targetUrl initial) as [s1 r]. simpl in Hb, Hc.
  rewrite Hb. exists (trace s1).
  destruct (browser_close w) as [[]|e]; simpl; now split.
Qed.

Lemma C7_witness :
  exists ops,
    trace (fst (extractM3U8WithBrowser Sample.URL Sample.world_timeout Sample.target initial))
    = (ops ++ [Browser_close])%list /\
    ~ In Browser_close ops.
Proof.
  apply (C7_browser_closed_on_every_exit Sample.URL Sample.world_timeout Sample.target
           "/tmp/chromium"); reflexivity.
Defined.

(** ** The handler *)

Section Handler.

Variable URL : string -> outcome URLObject.
Variable JSON_parse : string -> outcome JSValue.
Variable context : Context.

Lemma handler_without_context w event s :
  handler URL JSON_parse w event None s
  = (s, Throw (TypeError
                 "Cannot set properties of undefined (setting 'callbackWaitsForEmptyEventLoop')")).
Proof. reflexivity. Qed.

Lemma handler_options w event s :
  httpMethod event = "OPTIONS" ->
  handler URL JSON_parse w event (Some context) s
  = (s, Return {| statusCode := 200; response_headers := headers; response_body := "" |}).
Proof. intros H. unfold handler, bind, lift. simpl. rewrite H. reflexivity. Qed.

Lemma handler_try w event s :
  httpMethod event <> "OPTIONS" ->
  handler URL JSON_parse w event (Some context) s
  = try_catch (handler_body URL JSON_parse w event)
      (fun error =>
         text <- lift (error_message error) ;;
         ret (failure 500 ("Internal server error: " ++ text))) s.
Proof.
  intros Hm. unfold handler, bind at 1, lift at 1. simpl.
  apply String.eqb_neq in Hm. rewrite Hm. reflexivity.
Qed.

Lemma handler_read_throws w event s e :
  httpMethod event <> "OPTIONS" ->
  read_target JSON_parse event = Throw e ->
  handler URL JSON_parse w event (Some context) s
  = match error_message e with
    | Return text => (s, Return (failure 500 ("Internal server error: " ++ text)))
    | Throw raised => (s, Throw raised)
    end.
Proof.
  intros Hm Hr. rewrite (handler_try _ _ _ Hm).
  unfold try_catch, handler_body, bind, lift, ret. rewrite Hr.
  destruct (error_message e); reflexivity.
Qed.

Lemma handler_missing w event s target :
  httpMethod event <> "OPTIONS" ->
  read_target JSON_parse event = Return target ->
  match target with Some v => truthy v = false | None => True end ->
  handler URL JSON_parse w event (Some context) s
  = (s, Return (failure 400 "Missing url parameter. Usage: /extract?url=https://example.com")).
Proof.
  intros Hm Hr Hf. rewrite (handler_try _ _ _ Hm).
  unfold try_catch, handler_body, bind, lift. rewrite Hr.
  destruct target as [v|]; [rewrite Hf|]; reflexivity.
Qed.

Lemma handler_invalid w event s v e :
  httpMethod event <> "OPTIONS" ->
  read_target JSON_parse event = Return (Some v) ->
  truthy v = true ->
  new_URL URL v = Throw e ->
  handler URL JSON_parse w event (Some context) s
  = (s, Return (failure 400 "Invalid URL provided")).
Proof.
  intros Hm Hr Ht Hu. rewrite (handler_try _ _ _ Hm).
  unfold try_catch, handler_body, bind, lift. rewrite Hr, Ht, Hu. reflexivity.
Qed.

Lemma handler_valid w event s v u :
  httpMethod event <> "OPTIONS" ->
  read_target JSON_parse event = Return (Some v) ->
  truthy v = true ->
  new_URL URL v = Return u ->
  handler URL JSON_parse w event (Some context) s
  = match extractM3U8WithBrowser URL w v s with
    | (s', Return []) => (s', Return (failure 404 "No M3U8 links found on the webpage"))
    | (s', Return m3u8Links) => (s', Return (respond 200 (success_payload w v m3u8Links)))
    | (s', Throw e) =>
        match error_message e with
        | Return text => (s', Return (failure 500 ("Internal server error: " ++ text)))
        | Throw raised => (s', Throw raised)
        end
    end.
Proof.
  intros Hm Hr Ht Hu. rewrite (handler_try _ _ _ Hm).
  unfold try_catch, handler_body, bind, lift, ret. rewrite Hr, Ht, Hu. simpl.
  destruct (extractM3U8WithBrowser URL w v s) as [s' [[|l ls]|e]]; try reflexivity;
    destruct (error_message e); reflexivity.
Qed.

(** What [read_target] makes of a request, field by field. *)
Lemma read_target_requested event target :
  requested JSON_parse event target ->
  httpMethod event <> "OPTIONS" /\ read_target JSON_parse event = Return target.
Proof.
  unfold requested, read_target.
  intros [[Hm ->] | [(Hm & parsed & Hp & Hn & ->) | [Hm ->]]].
  - rewrite Hm. split; [discriminate|]. simpl.
    destruct (queryStringParameters event); reflexivity.
  - rewrite Hm. split; [discriminate|]. simpl. rewrite Hp.
    destruct parsed; try reflexivity. now elim Hn.
  - simpl in Hm. split; [intros E; apply Hm; rewrite E; tauto|].
    destruct (String.eqb (httpMethod event) "GET") eqn:Eg;
      [apply String.eqb_eq in Eg; exfalso; apply Hm; rewrite Eg; tauto|].
    destruct (String.eqb (httpMethod event) "POST") eqn:Ep;
      [apply String.eqb_eq in Ep; exfalso; apply Hm; rewrite Ep; tauto|].
    reflexivity.
Qed.

Lemma read_target_unreadable event error :
  httpMethod event = "POST" ->
  JSON_parse (body_text event) = Throw error \/
  JSON_parse (body_text event) = Return JNull /\
  error = TypeError "Cannot read properties of null (reading 'url')" ->
  read_target JSON_parse event = Throw error.
Proof.
  intros Hm H. unfold read_target. rewrite Hm. simpl.
  destruct H as [-> | [-> ->]]; reflexivity.
Qed.

End Handler.

(** C2, as stated, fails: a [POST] whose body is the JSON text [null], or a
    text that is not JSON, carries no target URL, and is answered 500, not
    400. *)
Lemma C2_missing_url_is_answered_500 :
  (carried_url Sample.JSON_parse (Sample.post_event (Some "null")) = None /\
   handler Sample.URL Sample.JSON_parse Sample.world (Sample.post_event (Some "null"))
     (Some Sample.context) initial
   = (initial,
      Return (failure 500
                "Internal server error: Cannot read properties of null (reading 'url')"))) /\
  (carried_url Sample.JSON_parse (Sample.post_event (Some "{")) = None /\
   handler Sample.URL Sample.JSON_parse Sample.world (Sample.post_event (Some "{"))
     (Some Sample.context) initial
   = (initial,
      Return (failure 500 "Internal server error: Unexpected token in JSON"))) /\
  statusCode (failure 500 "Internal server error: Unexpected token in JSON") <> 400.
Proof.
  repeat split; try (vm_compute; reflexivity). discriminate.
Qed.

(** C2, amended. The status codes of the handler, for every event: an
    [OPTIONS] request is answered 200 with an empty body and no call on the
    browser.  A [POST] whose body cannot be read ([JSON.parse] throws, or the
    body parses to [null], whose [url] cannot be read) is answered 500.
    Otherwise the request asks for a target, and the answer is 400 when that
    is missing (undefined or falsy) or is not accepted by [new URL], again
    without any call on the browser; and for a target that is accepted, 404
    when the extraction returns the empty list, 200 when it returns at least
    one link, 500 when it throws, which it does whenever the launch, the
    navigation or the evaluation fails.  The 500 answers are those for a
    thrown value whose message can be read. *)
Theorem C2_status_codes
    (URL : string -> outcome URLObject) (JSON_parse : string -> outcome JSValue)
    (w : World) (event : Event) (context : Context) :
  (httpMethod event = "OPTIONS" ->
   handler URL JSON_parse w event (Some context) initial
   = (initial, Return {| statusCode := 200; response_headers := headers;
                         response_body := "" |})) /\
  (httpMethod event = "POST" ->
   forall error text,
     JSON_parse (body_text event) = Throw error \/
     JSON_parse (body_text event) = Return JNull /\
     error = TypeError "Cannot read properties of null (reading 'url')" ->
     error_message error = Return text ->
     exists r, handler URL JSON_parse w event (Some context) initial = (initial, Return r)
               /\ statusCode r = 500) /\
  (forall target, requested JSON_parse event target ->
     (match target with Some v => truthy v = false | None => True end ->
      exists r, handler URL JSON_parse w event (Some context) initial = (initial, Return r)
                /\ statusCode r = 400) /\
     (forall v, target = Some v -> truthy v = true ->
        (forall e, new_URL URL v = Throw e ->
           exists r, handler URL JSON_parse w event (Some context) initial
                     = (initial, Return r)
                     /\ statusCode r = 400) /\
        (forall u, new_URL URL v = Return u ->
           forall s' out, extractM3U8WithBrowser URL w v initial = (s', out) ->
             match out with
             | Return [] =>
                 exists r, handler URL JSON_parse w event (Some context) initial
                           = (s', Return r)
                           /\ statusCode r = 404
             | Return (_ :: _) =>
                 exists r, handler URL JSON_parse w event (Some context) initial
                           = (s', Return r)
                           /\ statusCode r = 200
             | Throw error =>
                 forall text, error_message error = Return text ->
                   exists r, handler URL JSON_parse w event (Some context) initial
                             = (s', Return r)
                             /\ statusCode r = 500
             end))) /\
  (forall v e,
     puppeteer_launch w = Throw e \/ snd (page_goto w) = Throw e \/
     snd (page_evaluate w) = Throw e \/
     (exists doc, snd (page_evaluate w) = Return doc /\ Scanner.pageFunction doc = Throw e) ->
     exists e', snd (extractM3U8WithBrowser URL w v initial) = Throw e').
Proof.
  split; [| split; [| split]].
  - apply handler_options.
  - intros Hm error text Hu Ht.
    assert (httpMethod event <> "OPTIONS") as Hno by (rewrite Hm; discriminate).
    rewrite (handler_read_throws URL JSON_parse context w event initial error Hno
               (read_target_unreadable JSON_parse event error Hm Hu)), Ht.
    eexists. split; reflexivity.
  - intros target Hq. destruct (read_target_requested JSON_parse event target Hq) as [Hm Hr].
    split.
    + intros Hf. eexists. split; [eapply handler_missing; eassumption | reflexivity].
    + intros v -> Ht. split.
      * intros e Hu. eexists. split; [eapply handler_invalid; eassumption | reflexivity].
      * intros u Hu s' out He.
        rewrite (handler_valid URL JSON_parse context w event initial v u Hm Hr Ht Hu), He.
        destruct out as [[|l ls]|e]; [eexists; split; reflexivity ..|].
        intros text ->. eexists; split; reflexivity.
  - intros v e H. apply extract_throws with (e := e). tauto.
Qed.

Lemma C2_witness :
  (exists r, handler Sample.URL Sample.JSON_parse Sample.world Sample.options_event
               (Some Sample.context) initial
             = (initial, Return r) /\ statusCode r = 200 /\ response_body r = "") /\
  (exists r, handler Sample.URL Sample.JSON_parse Sample.world
               (Sample.post_event (Some "null")) (Some Sample.context) initial
             = (initial, Return r) /\ statusCode r = 500) /\
  (exists r, handler Sample.URL Sample.JSON_parse Sample.world
               (Sample.post_event None) (Some Sample.context) initial
             = (initial, Return r) /\ statusCode r = 400) /\
  (exists r, handler Sample.URL Sample.JSON_parse Sample.world
               (Sample.post_event (Some Sample.unprintable_body)) (Some Sample.context) initial
             = (initial, Return r) /\ statusCode r = 400) /\
  (exists r, handler Sample.URL Sample.JSON_parse Sample.world_empty
               (Sample.get_event "https://example.com/watch") (Some Sample.context) initial
             = (fst (extractM3U8WithBrowser Sample.URL Sample.world_empty Sample.target initial),
                Return r) /\ statusCode r = 404) /\
  (exists r, handler Sample.URL Sample.JSON_parse Sample.world
               (Sample.get_event "https://example.com/watch") (Some Sample.context) initial
             = (fst (extractM3U8WithBrowser Sample.URL Sample.world Sample.target initial),
                Return r) /\ statusCode r = 200) /\
  (exists r, handler Sample.URL Sample.JSON_parse Sample.world_timeout
               (Sample.get_event "https://example.com/watch") (Some Sample.context) initial
             = (fst (extractM3U8WithBrowser Sample.URL Sample.world_timeout Sample.target initial),
                Return r) /\ statusCode r = 500).
Proof.
  pose (get := Sample.get_event "https://example.com/watch").
  assert (requested Sample.JSON_parse get (Some Sample.target)) as Hget
    by (left; split; reflexivity).
  repeat split.
  - eexists. split; [| split];
      [ apply (proj1 (C2_status_codes Sample.URL Sample.JSON_parse Sample.world
                        Sample.options_event Sample.context)); reflexivity
      | reflexivity | reflexivity ].
  - exact (proj1 (proj2 (C2_status_codes Sample.URL Sample.JSON_parse Sample.world
                           (Sample.post_event (Some "null")) Sample.context))
             eq_refl (TypeError "Cannot read properties of null (reading 'url')")
             "Cannot read properties of null (reading 'url')"
             (or_intror (conj eq_refl eq_refl)) eq_refl).
  - refine (proj1 (proj1 (proj2 (proj2
              (C2_status_codes Sample.URL Sample.JSON_parse Sample.world
                 (Sample.post_event None) Sample.context))) None _) I).
    right; left. split; [reflexivity|].
    exists (JObject []). split; [vm_compute; reflexivity | split; [discriminate | reflexivity]].
  - refine (proj1 (proj2 (proj1 (proj2 (proj2
              (C2_status_codes Sample.URL Sample.JSON_parse Sample.world
                 (Sample.post_event (Some Sample.unprintable_body)) Sample.context)))
              (Some (JArray [JString "https://example.com/watch";
                             JObject [("toString", JString "x")]])) _)
              _ eq_refl eq_refl)
              (TypeError "Cannot convert object to primitive value") _).
    + right; left. split; [reflexivity|].
      eexists. split; [vm_compute; reflexivity | split; [discriminate | reflexivity]].
    + vm_compute. reflexivity.
  - exact (proj2 (proj2 (proj1 (proj2 (proj2
              (C2_status_codes Sample.URL Sample.JSON_parse Sample.world_empty
                 get Sample.context))) (Some Sample.target) Hget)
              Sample.target eq_refl eq_refl)
              {| pathname := "/watch" |} ltac:(vm_compute; reflexivity)
              _ (Return []) ltac:(vm_compute; reflexivity)).
  - exact (proj2 (proj2 (proj1 (proj2 (proj2
              (C2_status_codes Sample.URL Sample.JSON_parse Sample.world
                 get Sample.context))) (Some Sample.target) Hget)
              Sample.target eq_refl eq_refl)
              {| pathname := "/watch" |} ltac:(vm_compute; reflexivity)
              _ (Return ["https://cdn.example.com/live/index.m3u8?token=abc";
                         "https://example.com/video/master.m3u8"])
              ltac:(vm_compute; reflexivity)).
  - exact (proj2 (proj2 (proj1 (proj2 (proj2
              (C2_status_codes Sample.URL Sample.JSON_parse Sample.world_timeout
                 get Sample.context))) (Some Sample.target) Hget)
              Sample.target eq_refl eq_refl)
              {| pathname := "/watch" |} ltac:(vm_compute; reflexivity)
              _ (Throw (Thrown_object Sample.navigation_timeout))
              ltac:(vm_compute; reflexivity)
              "Navigation timeout of 25000 ms exceeded" eq_refl).
Defined.

Lemma read_target_not_options (JSON_parse : string -> outcome JSValue) event v :
  read_target JSON_parse event = Return (Some v) -> httpMethod event <> "OPTIONS".
Proof.
  intros H E. unfold read_target in H. rewrite E in H. simpl in H. discriminate.
Qed.

(** C9. The claim fails when the extraction rejects with [null]: for the
    valid URL string of the example and a page that makes the evaluation
    throw [null], the [catch] block of the handler reads [error.message],
    which throws a [TypeError], and the handler throws it instead of
    returning a response. *)
Theorem C9_null_rejection_leaves_the_handler :
  read_target Sample.JSON_parse (Sample.get_event "https://example.com/watch")
  = Return (Some (JString "https://example.com/watch")) /\
  Sample.URL "https://example.com/watch" = Return {| pathname := "/watch" |} /\
  snd (extractM3U8WithBrowser Sample.URL Sample.world_throws_null
         (JString "https://example.com/watch") initial)
  = Throw Thrown_null /\
  snd (handler Sample.URL Sample.JSON_parse Sample.world_throws_null
         (Sample.get_event "https://example.com/watch") (Some Sample.context) initial)
  = Throw (TypeError "Cannot read properties of null (reading 'message')").
Proof. repeat split; vm_compute; reflexivity. Qed.

(** C10. A [POST] whose body is a non-empty text that [JSON.parse] rejects
    is answered 500 with [success] false and the message of the syntax
    error behind [Internal server error: ], not 400; a [POST] without body,
    or with the empty body, has [{}] parsed instead and is answered 400 for
    the missing url.  Neither makes a call on the browser.  What
    [JSON.parse] throws is a [SyntaxError], whose message is a string; the
    statement holds for every thrown value whose message can be read. *)
Theorem C10_malformed_body_is_internal_error
    (URL : string -> outcome URLObject) (JSON_parse : string -> outcome JSValue)
    (w : World) (event : Event) (context : Context) :
  httpMethod event = "POST" ->
  (forall text e message,
     body event = Some text -> text <> "" -> JSON_parse text = Throw e ->
     error_message e = Return message ->
     handler URL JSON_parse w event (Some context) initial
     = (initial,
        Return {| statusCode := 500;
                  response_headers := headers;
                  response_body :=
                    JSON_stringify
                      (JObject [("success", JBool false);
                                ("error", JString ("Internal server error: " ++ message))]) |})) /\
  (body event = None \/ body event = Some "" ->
   JSON_parse "{}" = Return (JObject []) ->
   handler URL JSON_parse w event (Some context) initial
   = (initial,
      Return {| statusCode := 400;
                response_headers := headers;
                response_body :=
                  JSON_stringify
                    (JObject [("success", JBool false);
                              ("error", JString "Missing url parameter. Usage: /extract?url=https://example.com")]) |})).
Proof.
  intros Hm.
  assert (httpMethod event <> "OPTIONS") as Hno by (rewrite Hm; discriminate).
  split.
  - intros text e message Hb Hne Hp He.
    rewrite (handler_read_throws URL JSON_parse context w event initial e Hno);
      [now rewrite He|].
    unfold read_target, body_text. rewrite Hm, Hb. simpl.
    destruct text as [|c text]; [contradiction|]. simpl. now rewrite Hp.
  - intros Hb Hp.
    apply handler_missing with (target := None); [exact Hno | | exact I].
    unfold read_target, body_text. rewrite Hm. simpl.
    destruct Hb as [-> | ->]; simpl; now rewrite Hp.
Qed.

Lemma C10_witness :
  (exists r, handler Sample.URL Sample.JSON_parse Sample.world
               (Sample.post_event (Some "{url: https://example.com/watch}"))
               (Some Sample.context) initial
             = (initial, Return r) /\ statusCode r = 500) /\
  (exists r, handler Sample.URL Sample.JSON_parse Sample.world
               (Sample.post_event (Some "")) (Some Sample.context) initial
             = (initial, Return r) /\ statusCode r = 400).
Proof.
  split.
  - eexists. split.
    + exact (proj1 (C10_malformed_body_is_internal_error Sample.URL Sample.JSON_parse
                      Sample.world (Sample.post_event (Some "{url: https://example.com/watch}"))
                      Sample.context eq_refl)
               "{url: https://example.com/watch}" (Thrown_object Sample.syntax_error)
               "Unexpected token in JSON"
               eq_refl ltac:(discriminate) ltac:(vm_compute; reflexivity) eq_refl).
    + reflexivity.
  - eexists. split.
    + exact (proj2 (C10_malformed_body_is_internal_error Sample.URL Sample.JSON_parse
                      Sample.world (Sample.post_event (Some "")) Sample.context eq_refl)
               (or_intror eq_refl) ltac:(vm_compute; reflexivity)).
    + reflexivity.
Defined.

(** ** The URL pattern *)

Section PatternFacts.

Import Pattern.

Lemma url_char_canonicalize c : url_char (canonicalize c) = url_char c.
Proof. destruct c as [[] [] [] [] [] [] [] []]; reflexivity. Qed.

Lemma char_ci_url_char p c : char_ci p c = true -> url_char p = true -> url_char c = true.
Proof.
  unfold char_ci. intros H Hp. apply Ascii.eqb_eq in H.
  rewrite <- url_char_canonicalize, <- H, url_char_canonicalize. exact Hp.
Qed.

Lemma consumes_0 s : consumes s 0.
Proof. split; [lia | destruct s; reflexivity]. Qed.

Lemma consumes_S c t n : url_char c = true -> consumes t n -> consumes (String c t) (S n).
Proof. intros Hc [Hn Ha]. split; simpl; [lia | now rewrite Hc]. Qed.

Lemma literal_consumes pat : all url_char pat = true ->
  forall s t n, literal pat s = Some t -> consumes t n -> consumes s (String.length pat + n).
Proof.
  induction pat as [|p pat IH]; intros Hp s t n H Hn; simpl in *.
  - now inversion H; subst.
  - apply andb_true_iff in Hp. destruct Hp as [Hp Hpat].
    destruct s as [|c s]; [discriminate|].
    destruct (char_ci p c) eqn:E; [|discriminate].
    apply consumes_S; [eapply char_ci_url_char; eassumption | eapply IH; eassumption].
Qed.

Lemma class_star_consumes s : consumes s (class_star s).
Proof.
  induction s as [|c s IH]; simpl; [apply consumes_0|].
  destruct (url_char c) eqn:E; [now apply consumes_S | apply consumes_0].
Qed.

Lemma query_opt_consumes s : consumes s (query_opt s).
Proof.
  destruct s as [|c s]; simpl; [apply consumes_0|].
  destruct (Ascii.eqb c "?") eqn:E; [| apply consumes_0].
  apply Ascii.eqb_eq in E. subst. apply consumes_S; [reflexivity | apply class_star_consumes].
Qed.

Lemma marker_then_consumes s n : marker_then s = Some n -> consumes s n.
Proof.
  unfold marker_then. destruct (literal marker s) as [t|] eqn:E; [|discriminate].
  intros H. inversion H; subst.
  apply (literal_consumes marker eq_refl s t _ E), query_opt_consumes.
Qed.

Lemma class_star_then_consumes s n : class_star_then s = Some n -> consumes s n.
Proof.
  revert n. induction s as [|c s IH]; intros n; simpl.
  - apply marker_then_consumes.
  - destruct (url_char c) eqn:E.
    + destruct (class_star_then s) as [k|].
      * intros H. inversion H; subst. apply consumes_S; auto.
      * apply marker_then_consumes.
    + apply marker_then_consumes.
Qed.

Lemma class_plus_then_consumes s n : class_plus_then s = Some n -> consumes s n.
Proof.
  destruct s as [|c s]; simpl; [discriminate|].
  destruct (url_char c) eqn:E; [|discriminate].
  destruct (class_star_then s) as [k|] eqn:K; simpl; [|discriminate].
  intros H. inversion H; subst. apply consumes_S; [exact E|].
  now apply class_star_then_consumes.
Qed.

Lemma slashes_then_consumes s n : slashes_then s = Some n -> consumes s n.
Proof.
  unfold slashes_then. destruct (literal "://" s) as [t|] eqn:E; [|discriminate].
  destruct (class_plus_then t) as [k|] eqn:K; simpl; [|discriminate].
  intros H. inversion H; subst.
  apply (literal_consumes "://" eq_refl s t _ E), class_plus_then_consumes, K.
Qed.

Lemma s_opt_then_consumes s n : s_opt_then s = Some n -> consumes s n.
Proof.
  destruct s as [|c s]; simpl.
  - apply slashes_then_consumes.
  - destruct (char_ci "s" c) eqn:E; [| apply slashes_then_consumes].
    destruct (slashes_then s) as [k|] eqn:K; [| apply slashes_then_consumes].
    intros H. inversion H; subst. apply consumes_S.
    + eapply char_ci_url_char; [exact E | reflexivity].
    + now apply slashes_then_consumes.
Qed.

(** A match is made of code units of the class, and is not empty. *)
Lemma match_at_consumes s n : match_at s = Some n -> consumes s n /\ 0 < n.
Proof.
  unfold match_at. destruct (literal "http" s) as [t|] eqn:E; [|discriminate].
  destruct (s_opt_then t) as [k|] eqn:K; simpl; [|discriminate].
  intros H. inversion H; subst. split; [| lia].
  apply (literal_consumes "http" eq_refl s t _ E), s_opt_then_consumes, K.
Qed.

Lemma length_append (a b : string) :
  String.length (a ++ b) = String.length a + String.length b.
Proof. induction a as [|c a IH]; simpl; [reflexivity | now rewrite IH]. Qed.

Lemma take_append (t post : string) : take (String.length t) (t ++ post) = t.
Proof. induction t as [|c t IH]; simpl; [now destruct post | now rewrite IH]. Qed.

Lemma drop_append (n : nat) (pre rest : string) :
  n < String.length pre -> drop n (pre ++ rest) = drop n pre ++ rest.
Proof.
  revert pre. induction n as [|n IH]; intros pre H.
  - destruct pre; reflexivity.
  - destruct pre as [|c pre]; simpl in *; [lia|]. apply IH. lia.
Qed.

Lemma length_drop (n : nat) (s : string) :
  String.length (drop n s) = String.length s - n.
Proof.
  revert s. induction n as [|n IH]; intros s.
  - destruct s; simpl; lia.
  - destruct s as [|c s]; simpl; [reflexivity | apply IH].
Qed.

Lemma last_is_drop p (n : nat) (s : string) :
  n < String.length s -> last_is p (drop n s) = last_is p s.
Proof.
  revert s. induction n as [|n IH]; intros s H.
  - destruct s; reflexivity.
  - destruct s as [|c s]; simpl in *; [lia|].
    rewrite IH by lia. destruct s; [simpl in H; lia | reflexivity].
Qed.

Lemma all_take_before_last p (pre rest : string) (n : nat) :
  all p (take n (pre ++ rest)) = true ->
  last_is (fun c => negb (p c)) pre = true ->
  n < String.length pre.
Proof.
  revert n. induction pre as [|c pre IH]; intros n Ha Hl; [discriminate|].
  destruct n as [|n]; [simpl; lia|].
  simpl in Ha. apply andb_true_iff in Ha. destruct Ha as [Hc Ha].
  destruct pre as [|d pre].
  - simpl in Hl. rewrite Hc in Hl. discriminate.
  - specialize (IH n Ha Hl). simpl in *. lia.
Qed.

(** The loop never runs out of fuel on a text of at most that length: more
    fuel gives the same matches. *)
Lemma exec_loop_fuel fuel1 :
  forall fuel2 s,
    String.length s <= fuel1 -> String.length s <= fuel2 ->
    exec_loop fuel1 s = exec_loop fuel2 s.
Proof.
  induction fuel1 as [|fuel1 IH]; intros fuel2 s H1 H2.
  - destruct s; [| simpl in H1; lia]. now destruct fuel2.
  - destruct fuel2 as [|fuel2]; [destruct s; [reflexivity | simpl in H2; lia]|].
    destruct s as [|c t]; [reflexivity|]. cbn [exec_loop].
    destruct (match_at (String c t)) as [n|] eqn:E.
    + apply match_at_consumes in E. destruct E as [_ Hn].
      f_equal. apply IH; rewrite length_drop; lia.
    + apply IH; simpl in *; lia.
Qed.

(** A delimited occurrence of a text that the pattern matches as a whole
    is one of the results of the global match. *)
Lemma exec_loop_finds (target : string) :
  target <> "" ->
  (forall post, right_delimited post ->
     match_at (target ++ post) = Some (String.length target)) ->
  forall fuel pre post,
    left_delimited pre -> right_delimited post ->
    String.length (pre ++ target ++ post) <= fuel ->
    In target (exec_loop fuel (pre ++ target ++ post)).
Proof.
  intros Hne Hm. induction fuel as [fuel IH] using lt_wf_ind.
  intros pre post Hpre Hpost Hlen.
  destruct fuel as [|fuel].
  - rewrite !length_append in Hlen. destruct target; [contradiction | simpl in Hlen; lia].
  - destruct pre as [|c pre].
    + simpl append at 1. simpl append at 1 in Hlen.
      destruct target as [|c target]; [contradiction|].
      cbn [exec_loop append]. change (String c (target ++ post)) with (String c target ++ post).
      rewrite (Hm post Hpost). left. apply take_append.
    + cbn [exec_loop append].
      change (String c (pre ++ target ++ post)) with (String c pre ++ target ++ post).
      destruct (match_at (String c pre ++ target ++ post)) as [n|] eqn:E.
      * right. apply match_at_consumes in E. destruct E as [[_ Ha] Hn].
        assert (n < String.length (String c pre)) as Hlt.
        { destruct Hpre as [Hpre|Hpre]; [discriminate|].
          eapply all_take_before_last; eassumption. }
        rewrite drop_append by exact Hlt.
        apply IH.
        -- lia.
        -- right. destruct Hpre as [Hpre|Hpre]; [discriminate|].
           now rewrite last_is_drop.
        -- exact Hpost.
        -- rewrite length_append, length_drop. rewrite length_append in Hlen. lia.
      * apply IH.
        -- lia.
        -- destruct pre as [|d pre]; [now left | right].
           destruct Hpre as [Hpre|Hpre]; [discriminate | exact Hpre].
        -- exact Hpost.
        -- simpl in Hlen. lia.
Qed.

Lemma match_at_master post :
  right_delimited post -> match_at (master ++ post) = Some (String.length master).
Proof.
  intros [-> | H]; [reflexivity|].
  destruct post as [|c post]; [discriminate|]. simpl in H.
  destruct c as [[] [] [] [] [] [] [] []]; try discriminate H; reflexivity.
Qed.

Lemma match_all_master pre post :
  left_delimited pre -> right_delimited post ->
  In master (match_all (pre ++ master ++ post)).
Proof.
  intros Hpre Hpost. unfold match_all.
  apply exec_loop_finds; auto using match_at_master. discriminate.
Qed.

(** ** The Content Scanner *)

Lemma fold_left_mono {B} (f : JSSet.t -> B -> JSSet.t) (x : string) :
  (forall l b, In x l -> In x (f l b)) ->
  forall bs l, In x l -> In x (fold_left f bs l).
Proof.
  intros Hf bs. induction bs as [|b bs IH]; intros l H; simpl; [exact H|].
  apply IH, Hf, H.
Qed.

Lemma fold_left_hit {B} (f : JSSet.t -> B -> JSSet.t) (x : string) (b : B) :
  (forall l b, In x l -> In x (f l b)) ->
  (forall l, In x (f l b)) ->
  forall bs l, In b bs -> In x (fold_left f bs l).
Proof.
  intros Hf Hb bs. induction bs as [|b' bs IH]; intros l H; simpl; [destruct H|].
  destruct H as [-> | H].
  - apply fold_left_mono; [exact Hf | apply Hb].
  - now apply IH.
Qed.

Lemma add_matches_mono links text x : In x links -> In x (Scanner.add_matches links text).
Proof.
  intros H. unfold Scanner.add_matches.
  destruct (String_match text); [apply In_add_all; now left | exact H].
Qed.

Lemma add_matches_hit links text x :
  In x (match_all text) -> In x (Scanner.add_matches links text).
Proof.
  intros H. unfold Scanner.add_matches, String_match.
  destruct (match_all text) as [|m ms]; [destruct H|].
  apply In_add_all. now right.
Qed.

Lemma scan_script_mono links script x :
  In x links -> In x (Scanner.scan_script links script).
Proof. apply add_matches_mono. Qed.

Lemma scan_config_mono doc links name x :
  In x links -> In x (Scanner.scan_config doc links name).
Proof.
  intros H. unfold Scanner.scan_config.
  destruct (window doc name) as [[|[[configStr|]|e]]|e]; auto using add_matches_mono.
Qed.

Lemma scan_attribute_mono el links attr x :
  In x links -> In x (Scanner.scan_attribute el links attr).
Proof.
  intros H. unfold Scanner.scan_attribute.
  destruct (getAttribute el attr) as [value|]; [|exact H].
  destruct (_ && _); [apply In_add; now left | exact H].
Qed.

Lemma scan_element_mono links el x :
  In x links -> In x (Scanner.scan_element links el).
Proof.
  unfold Scanner.scan_element. apply fold_left_mono.
  intros l b. apply scan_attribute_mono.
Qed.

(** What the script pass has found is in the list the scanner returns. *)
Lemma pageFunction_keeps_script_links doc links x :
  Scanner.pageFunction doc = Return links ->
  In x (Scanner.scan_scripts doc JSSet.empty) -> In x links.
Proof.
  unfold Scanner.pageFunction, Scanner.scan_html. intros H Hx.
  destruct (documentElement doc) as [allText|]; [|discriminate].
  inversion H; subst. unfold JSSet.Array_from.
  apply add_matches_mono.
  unfold Scanner.scan_elements. apply fold_left_mono; [intros l b; apply scan_element_mono|].
  unfold Scanner.scan_configs. apply fold_left_mono; [intros l b; apply scan_config_mono|].
  exact Hx.
Qed.

(** C8, as stated, fails: here the string stands in an inline script, as
    the second entry of a comma-separated list of URLs, and nowhere else;
    the pattern takes the whole list as one match, so the string itself is
    not among the candidates. *)
Lemma C8_url_in_a_list_is_not_recovered :
  includes Sample.list_script_text master = true /\
  Scanner.scan_scripts Sample.list_page JSSet.empty
  = ["https://example.com/video/low.m3u8,https://example.com/video/master.m3u8"] /\
  Scanner.pageFunction Sample.list_page
  = Return ["https://example.com/video/low.m3u8,https://example.com/video/master.m3u8"] /\
  ~ In master ["https://example.com/video/low.m3u8,https://example.com/video/master.m3u8"].
Proof.
  repeat split; try (vm_compute; reflexivity).
  intros [H|[]]. discriminate H.
Qed.

(** C8, amended. When the string stands in the text of a script element
    between delimiters (before it the start of the text or a code unit the
    pattern excludes, after it the end of the text or such a code unit), the
    script pass alone recovers it: the pattern matches exactly that string,
    the pass adds it to the candidate set, and it is in the list the
    scanner returns, whatever the other passes find. *)
Theorem C8_delimited_script_url_is_recovered
    (doc : Document) (script : Element) (pre post : string) :
  In script (querySelectorAll_script doc) ->
  textContent script = pre ++ master ++ post ->
  left_delimited pre ->
  right_delimited post ->
  In master (match_all (textContent script)) /\
  In master (Scanner.scan_scripts doc JSSet.empty) /\
  (forall links, Scanner.pageFunction doc = Return links -> In master links).
Proof.
  intros Hs Ht Hpre Hpost.
  assert (In master (match_all (textContent script))) as Hm
    by (rewrite Ht; now apply match_all_master).
  assert (In master (Scanner.scan_scripts doc JSSet.empty)) as Hscan.
  { unfold Scanner.scan_scripts.
    apply fold_left_hit with (b := script); [intros l b; apply scan_script_mono | | exact Hs].
    intros l. unfold Scanner.scan_script. apply add_matches_hit.
    replace (or_else (textContent script) (or_else (innerText script) ""))
      with (textContent script); [exact Hm|].
    rewrite Ht. destruct pre; reflexivity. }
  repeat split; [exact Hm | exact Hscan |].
  intros links Hl. eapply pageFunction_keeps_script_links; eassumption.
Qed.

Lemma C8_witness :
  In master (match_all Sample.script_text) /\
  In master (Scanner.scan_scripts Sample.page JSSet.empty) /\
  (forall links, Scanner.pageFunction Sample.page = Return links -> In master links).
Proof.
  apply (C8_delimited_script_url_is_recovered Sample.page
           {| localName := "script"; attributes := [];
              textContent := Sample.script_text; innerText := Sample.script_text |}
           "var src = '" "';").
  - simpl. tauto.
  - reflexivity.
  - right. reflexivity.
  - right. reflexivity.
Defined.

End PatternFacts.

(** ** The reference URL constructor and the marker *)

Section WhatwgFacts.

Import Whatwg.

Lemma marker_free_sub pre sub post :
  marker_free (pre ++ sub ++ post) -> marker_free sub.
Proof. apply includes_false_substring. Qed.

Lemma marker_free_suffix pre s : marker_free (pre ++ s) -> marker_free s.
Proof.
  intros H. apply (marker_free_sub pre s ""). now rewrite append_empty_r.
Qed.

Lemma marker_free_prefix s post : marker_free (s ++ post) -> marker_free s.
Proof. apply (marker_free_sub "" s post). Qed.

Lemma prefix_empty s : String.prefix "" s = true.
Proof. destruct s; reflexivity. Qed.

(** An occurrence that starts in [a] cannot run over a slash. *)
Lemma prefix_before_slash p :
  all (fun c => negb (is_code 47 c)) p = true ->
  forall a b, b = "" \/ head_is (is_code 47) b = true ->
  String.prefix p (a ++ b) = true -> String.prefix p a = true.
Proof.
  induction p as [|x p IH]; intros Hp a b Hb H; [apply prefix_empty|].
  simpl in Hp. apply andb_true_iff in Hp. destruct Hp as [Hx Hp].
  destruct a as [|c a]; simpl in *.
  - destruct Hb as [-> | Hb]; [discriminate H|].
    destruct b as [|d b]; [discriminate Hb|]. simpl in Hb, H.
    destruct (ascii_dec x d) as [->|]; [|discriminate H].
    rewrite Hb in Hx. discriminate Hx.
  - destruct (ascii_dec x c); [| discriminate]. eapply IH; eassumption.
Qed.

Lemma includes_before_slash a b :
  b = "" \/ head_is (is_code 47) b = true ->
  includes (a ++ b) marker = true ->
  includes a marker = true \/ includes b marker = true.
Proof.
  intros Hb. induction a as [|c a IH]; intros H; [now right|].
  change (String c a ++ b) with (String c (a ++ b)) in H.
  cbn [includes] in *. apply orb_true_iff in H. destruct H as [H|H].
  - left. apply orb_true_iff. left.
    apply (prefix_before_slash marker eq_refl (String c a) b Hb H).
  - destruct (IH H) as [H'|H']; [left | now right].
    apply orb_true_iff. now right.
Qed.

Lemma serialize_path_marker_free path :
  Forall marker_free path -> marker_free (serialize_path path).
Proof.
  induction 1 as [|segment path Hs Hp IH]; [reflexivity|].
  unfold marker_free in *. cbn [serialize_path].
  destruct (includes ("/" ++ segment ++ serialize_path path) marker) eqn:E; [|reflexivity].
  change ("/" ++ segment ++ serialize_path path)
    with (String "/" (segment ++ serialize_path path)) in E.
  cbn [includes] in E. apply orb_true_iff in E. destruct E as [E|E]; [discriminate E|].
  apply includes_before_slash in E.
  - destruct E; congruence.
  - destruct path; [now left | right; reflexivity].
Qed.

(** *** Percent-encoding does not create the marker *)

Lemma skip_escape set c rest :
  set c = true ->
  includes (percent_encode set c ++ rest) marker = includes rest marker.
Proof.
  unfold percent_encode. intros ->.
  destruct c as [[] [] [] [] [] [] [] []]; reflexivity.
Qed.

Lemma escape_head set c rest x :
  set c = true -> is_code 37 x = false ->
  String.prefix (String x "") (percent_encode set c ++ rest) = false.
Proof.
  unfold percent_encode. intros -> Hx.
  assert (forall t, String.prefix (String x "") (String "%" t) = false) as H.
  { intros t. simpl. destruct (ascii_dec x "%") as [->|]; [discriminate Hx | reflexivity]. }
  destruct c as [[] [] [] [] [] [] [] []]; apply H.
Qed.

Lemma prefix_cons_inv x p c s :
  String.prefix (String x p) (String c s) = true -> x = c /\ String.prefix p s = true.
Proof. simpl. destruct (ascii_dec x c); [now split | discriminate]. Qed.

Lemma prefix_head x p s :
  String.prefix (String x p) s = true -> String.prefix (String x "") s = true.
Proof.
  destruct s as [|c s]; [discriminate|]. simpl.
  destruct (ascii_dec x c); [intros _; apply prefix_empty | discriminate].
Qed.

Lemma prefix_encode_piece p :
  all (fun c => negb (is_code 37 c)) p = true ->
  forall t, String.prefix p (encode_piece t) = true -> String.prefix p t = true.
Proof.
  induction p as [|x p IH]; intros Hp t H; [apply prefix_empty|].
  simpl in Hp. apply andb_true_iff in Hp. destruct Hp as [Hx Hp].
  apply negb_true_iff in Hx.
  destruct t as [|c t]; [discriminate H|]. cbn [encode_piece] in H.
  destruct (path_set c) eqn:E.
  - apply prefix_head in H. rewrite (escape_head path_set c _ x E Hx) in H. discriminate.
  - unfold percent_encode in H. rewrite E in H.
    change (String c "" ++ encode_piece t) with (String c (encode_piece t)) in H.
    apply prefix_cons_inv in H. destruct H as [-> H]. simpl.
    destruct (ascii_dec c c); [now apply IH | congruence].
Qed.

Lemma encode_piece_marker_free piece :
  marker_free piece -> marker_free (encode_piece piece).
Proof.
  unfold marker_free. induction piece as [|c t IH]; intros H; [reflexivity|].
  cbn [includes] in H. apply orb_false_iff in H. destruct H as [Hp Ht].
  cbn [encode_piece]. destruct (path_set c) eqn:E.
  - rewrite skip_escape by exact E. now apply IH.
  - unfold percent_encode. rewrite E.
    change (String c "" ++ encode_piece t) with (String c (encode_piece t)).
    cbn [includes]. apply orb_false_iff. split; [| now apply IH].
    destruct (String.prefix marker (String c (encode_piece t))) eqn:P; [|reflexivity].
    rewrite <- Hp. symmetry.
    apply (prefix_encode_piece marker eq_refl (String c t)).
    cbn [encode_piece]. unfold percent_encode. now rewrite E.
Qed.

Lemma encode_piece_app a b : encode_piece (a ++ b) = encode_piece a ++ encode_piece b.
Proof.
  induction a as [|c a IH]; simpl; [reflexivity|]. now rewrite IH, append_assoc.
Qed.

Lemma drive_letter_encode buffer :
  windows_drive_letter buffer = true -> encode_piece buffer = buffer.
Proof.
  destruct buffer as [|a [|b [|c t]]]; try discriminate.
  cbn [windows_drive_letter encode_piece]. unfold percent_encode.
  intros H. apply andb_true_iff in H. destruct H as [Ha Hb].
  assert (path_set a = false) as ->
    by (destruct a as [[] [] [] [] [] [] [] []]; try discriminate Ha; reflexivity).
  assert (path_set b = false) as ->
    by (destruct b as [[] [] [] [] [] [] [] []]; try discriminate Hb; reflexivity).
  reflexivity.
Qed.

(** *** The path states keep marker-free segments *)

Lemma Forall_removelast {A} (P : A -> Prop) (l : list A) :
  Forall P l -> Forall P (removelast l).
Proof.
  induction 1 as [|x l Hx Hl IH]; [constructor|].
  simpl. destruct l; [constructor | constructor; assumption].
Qed.

Lemma shorten_marker_free file path :
  Forall marker_free path -> Forall marker_free (shorten file path).
Proof.
  intros H. unfold shorten.
  destruct path as [|segment [|s2 rest]]; [constructor | | now apply Forall_removelast].
  destruct (file && normalized_drive_letter segment); [exact H | constructor].
Qed.

Lemma Forall_snoc {A} (P : A -> Prop) (l : list A) (x : A) :
  Forall P l -> P x -> Forall P (l ++ [x]).
Proof. intros Hl Hx. apply Forall_app. split; [exact Hl | now constructor]. Qed.

Lemma short_marker_free s : String.length s < 5 -> marker_free s.
Proof.
  intros H. unfold marker_free. destruct (includes s marker) eqn:E; [|reflexivity].
  apply includes_spec in E. destruct E as [pre [post ->]].
  rewrite !length_append in H. simpl in H. lia.
Qed.

Lemma close_segment_marker_free file slash path buffer :
  Forall marker_free path -> marker_free buffer ->
  Forall marker_free (close_segment file slash path buffer).
Proof.
  intros Hp Hb. unfold close_segment.
  destruct (double_dot buffer).
  { destruct slash; [| apply Forall_snoc; [|reflexivity]]; now apply shorten_marker_free. }
  destruct (single_dot buffer).
  { destruct slash; [exact Hp | apply Forall_snoc; [exact Hp | reflexivity]]. }
  destruct path as [|segment path].
  - destruct buffer as [|a [|b [|c t]]]; try (constructor; [exact Hb | constructor]).
    destruct (file && windows_drive_letter (String a (String b ""))).
    + constructor; [| constructor]. apply short_marker_free. simpl. lia.
    + constructor; [exact Hb | constructor].
  - destruct buffer as [|a [|b [|c t]]]; now apply Forall_snoc.
Qed.

Lemma path_state_marker_free special file s :
  forall path piece,
    Forall marker_free path -> marker_free (piece ++ s) ->
    Forall marker_free (path_state special file s path (encode_piece piece)).
Proof.
  induction s as [|c t IH]; intros path piece Hp Hs; cbn [path_state].
  - apply close_segment_marker_free; [exact Hp|].
    apply encode_piece_marker_free. now rewrite append_empty_r in Hs.
  - assert (marker_free (encode_piece piece)) as Hb
      by (apply encode_piece_marker_free; eapply marker_free_prefix; exact Hs).
    destruct (is_slash special c).
    + apply (IH _ "").
      * now apply close_segment_marker_free.
      * apply (marker_free_suffix (piece ++ String c "")).
        now rewrite append_assoc.
    + destruct (is_code 63 c || is_code 35 c).
      * now apply close_segment_marker_free.
      * replace (encode_piece piece ++ percent_encode path_set c)
          with (encode_piece (piece ++ String c ""))
          by (rewrite encode_piece_app; simpl; now rewrite append_empty_r).
        apply IH; [exact Hp | now rewrite append_assoc].
Qed.

Lemma path_state_start special file s :
  marker_free s -> Forall marker_free (path_state special file s [] "").
Proof. intros H. apply (path_state_marker_free special file s [] ""); [constructor | exact H]. Qed.

Lemma marker_free_tail c t : marker_free (String c t) -> marker_free t.
Proof. apply (marker_free_suffix (String c "")). Qed.

Lemma path_start_state_marker_free special file s :
  marker_free s -> Forall marker_free (path_start_state special file s).
Proof.
  intros H. unfold path_start_state. destruct s as [|c t].
  - destruct special; [now apply path_state_start | constructor].
  - pose proof (marker_free_tail c t H) as Ht.
    destruct special.
    + destruct (_ || _); now apply path_state_start.
    + destruct (_ || _); [constructor|]. destruct (is_code 47 c); now apply path_state_start.
Qed.

Lemma span_until_append stop s :
  s = fst (span_until stop s) ++ snd (span_until stop s).
Proof.
  induction s as [|c t IH]; simpl; [reflexivity|].
  destruct (stop c); [reflexivity|].
  destruct (span_until stop t) as [a b]. simpl in *. now rewrite <- IH.
Qed.

Lemma span_until_rest stop s : marker_free s -> marker_free (snd (span_until stop s)).
Proof.
  intros H. rewrite (span_until_append stop s) in H. eapply marker_free_suffix, H.
Qed.

Lemma authority_state_marker_free host_parser special file s path :
  marker_free s ->
  authority_state host_parser special file s = Some path ->
  Forall marker_free path.
Proof.
  intros H. unfold authority_state.
  pose proof (span_until_rest (authority_end special) s H) as Hr.
  destruct (span_until (authority_end special) s) as [authority rest]. simpl in Hr.
  destruct (authority_ok host_parser special authority); [|discriminate].
  intros E. injection E as <-. now apply path_start_state_marker_free.
Qed.

Lemma file_host_state_marker_free host_parser s path :
  marker_free s ->
  file_host_state host_parser s = Some path ->
  Forall marker_free path.
Proof.
  intros H. unfold file_host_state.
  pose proof (span_until_rest file_host_end s H) as Hr.
  pose proof (span_until_append file_host_end s) as Hs.
  destruct (span_until file_host_end s) as [buffer rest]. simpl in Hr, Hs.
  destruct (windows_drive_letter buffer) eqn:W.
  - intros E. injection E as <-.
    rewrite <- (drive_letter_encode buffer W).
    apply path_state_marker_free; [constructor | now rewrite <- Hs].
  - destruct (String.eqb buffer ""); [| destruct (host_parser false buffer); [|discriminate]];
      intros E; injection E as <-; now apply path_start_state_marker_free.
Qed.

Lemma Some_segments (p q : list string) :
  Some p = Some q -> Forall marker_free p -> Forall marker_free q.
Proof. intros E. now injection E as <-. Qed.

Lemma file_state_marker_free host_parser s path :
  marker_free s ->
  file_state host_parser s = Some path ->
  Forall marker_free path.
Proof.
  intros H. unfold file_state.
  destruct s as [|c t];
    [intros E; apply (Some_segments _ _ E); now apply path_state_start|].
  pose proof (marker_free_tail c t H) as Ht.
  destruct (_ || _);
    [| intros E; apply (Some_segments _ _ E); now apply path_state_start].
  destruct t as [|c' t'];
    [intros E; apply (Some_segments _ _ E); now apply path_state_start|].
  destruct (_ || _);
    [| intros E; apply (Some_segments _ _ E); now apply path_state_start].
  apply file_host_state_marker_free. eapply marker_free_tail, Ht.
Qed.

(** *** Opaque paths *)

Lemma prefix_opaque_path p :
  all (fun c => negb (is_code 37 c) && negb (is_code 32 c)) p = true ->
  forall t, String.prefix p (opaque_path_state t) = true -> String.prefix p t = true.
Proof.
  induction p as [|x p IH]; intros Hp t H; [apply prefix_empty|].
  simpl in Hp. apply andb_true_iff in Hp. destruct Hp as [Hx Hp].
  apply andb_true_iff in Hx. destruct Hx as [Hpct Hsp].
  apply negb_true_iff in Hpct. apply negb_true_iff in Hsp.
  destruct t as [|c t]; [discriminate H|]. cbn [opaque_path_state] in H.
  destruct (is_code 63 c || is_code 35 c); [discriminate H|].
  destruct (is_code 32 c) eqn:S.
  - exfalso. destruct (head_is _ t); apply prefix_cons_inv in H; destruct H as [-> _];
      discriminate.
  - destruct (c0_control_set c) eqn:E.
    + apply prefix_head in H. rewrite (escape_head c0_control_set c _ x E Hpct) in H.
      discriminate.
    + unfold percent_encode in H. rewrite E in H.
      change (String c "" ++ opaque_path_state t) with (String c (opaque_path_state t)) in H.
      apply prefix_cons_inv in H. destruct H as [-> H]. simpl.
      destruct (ascii_dec c c); [now apply IH | congruence].
Qed.

Lemma opaque_path_marker_free s : marker_free s -> marker_free (opaque_path_state s).
Proof.
  unfold marker_free. induction s as [|c t IH]; intros H; [reflexivity|].
  cbn [includes] in H. apply orb_false_iff in H. destruct H as [Hp Ht].
  cbn [opaque_path_state].
  destruct (is_code 63 c || is_code 35 c) eqn:Q; [reflexivity|].
  destruct (is_code 32 c) eqn:S.
  - destruct (head_is _ t); cbn; now apply IH.
  - destruct (c0_control_set c) eqn:E.
    + rewrite skip_escape by exact E. now apply IH.
    + unfold percent_encode. rewrite E.
      change (String c "" ++ opaque_path_state t) with (String c (opaque_path_state t)).
      cbn [includes]. apply orb_false_iff. split; [| now apply IH].
      destruct (String.prefix marker (String c (opaque_path_state t))) eqn:P; [|reflexivity].
      rewrite <- Hp. symmetry.
      apply (prefix_opaque_path marker eq_refl (String c t)).
      cbn [opaque_path_state]. rewrite Q, S. unfold percent_encode. now rewrite E.
Qed.

(** *** The constructor *)

Lemma strip_leading_suffix s : exists p, s = p ++ strip_leading s.
Proof.
  induction s as [|c t [p IH]]; [now exists ""|]. simpl.
  destruct (c0_or_space c); [| now exists ""].
  exists (String c p). simpl. now rewrite <- IH.
Qed.

Lemma strip_trailing_prefix s : exists q, s = strip_trailing s ++ q.
Proof.
  induction s as [|c t [q IH]]; [now exists ""|]. simpl.
  destruct (strip_trailing t) as [|d t'] eqn:E.
  - destruct (c0_or_space c); [now exists (String c t) | exists t; reflexivity].
  - exists q. simpl. simpl in IH. now rewrite <- IH.
Qed.

Lemma all_append p a b : all p (a ++ b) = all p a && all p b.
Proof.
  induction a as [|c a IH]; simpl; [reflexivity|]. now rewrite IH, andb_assoc.
Qed.

Lemma remove_tab_newline_id s :
  all (fun c => negb (tab_or_newline c)) s = true -> remove_tab_newline s = s.
Proof.
  induction s as [|c t IH]; simpl; [reflexivity|].
  intros H. apply andb_true_iff in H. destruct H as [Hc Ht].
  apply negb_true_iff in Hc. rewrite Hc. now rewrite IH.
Qed.

Lemma scheme_state_rest s scheme rest :
  scheme_state s = Some (scheme, rest) -> marker_free s -> marker_free rest.
Proof.
  unfold scheme_state. destruct s as [|c t]; [discriminate|].
  destruct (ascii_alpha c); [|discriminate].
  pose proof (span_until_append (fun c => negb (scheme_char c)) (String c t)) as Hs.
  destruct (span_until _ (String c t)) as [buffer [|colon r]]; [discriminate|].
  destruct (is_code 58 colon); [|discriminate].
  intros E. injection E as _ <-. intros H. simpl in Hs. rewrite Hs in H.
  apply (marker_free_suffix (buffer ++ String colon "")).
  now rewrite append_assoc.
Qed.

Lemma ignore_slashes_suffix s : marker_free s -> marker_free (ignore_slashes s).
Proof.
  induction s as [|c t IH]; intros H; [exact H|]. simpl.
  destruct (_ || _); [| exact H]. apply IH. eapply marker_free_tail, H.
Qed.

(** The pathname of the reference constructor holds the marker only when
    the text it was given does, as long as that text has no tab or newline
    (which the parser would remove from the middle of it). *)
Lemma URL_marker_free host_parser input u :
  all (fun c => negb (tab_or_newline c)) input = true ->
  marker_free input ->
  URL host_parser input = Return u ->
  marker_free (pathname u).
Proof.
  intros Htn Hm. unfold URL.
  destruct (strip_leading_suffix input) as [p Hp].
  destruct (strip_trailing_prefix (strip_leading input)) as [q Hq].
  set (core := strip_trailing (strip_leading input)) in *.
  assert (marker_free core) as Hc.
  { rewrite Hp, Hq in Hm. eapply marker_free_sub, Hm. }
  assert (remove_tab_newline core = core) as ->.
  { apply remove_tab_newline_id. rewrite Hp, Hq, !all_append in Htn.
    apply andb_true_iff in Htn. destruct Htn as [_ Htn].
    apply andb_true_iff in Htn. tauto. }
  destruct (scheme_state core) as [[scheme rest]|] eqn:Es; [|discriminate].
  pose proof (scheme_state_rest _ _ _ Es Hc) as Hr.
  match goal with
  | |- match ?segments with _ => _ end = _ -> _ =>
      assert (forall path, segments = Some path -> marker_free path) as Hseg;
      [| destruct segments as [path|]; [|discriminate];
         intros E; injection E as <-; now apply Hseg ]
  end.
  intros path.
  destruct (String.eqb scheme "file").
  { destruct (file_state host_parser rest) as [segs|] eqn:E; [|discriminate].
    intros H. injection H as <-. apply serialize_path_marker_free.
    eapply file_state_marker_free; eassumption. }
  destruct (special_scheme scheme).
  { destruct (authority_state host_parser true false (ignore_slashes rest)) as [segs|] eqn:E;
      [|discriminate].
    intros H. injection H as <-. apply serialize_path_marker_free.
    eapply authority_state_marker_free; [| exact E]. now apply ignore_slashes_suffix. }
  destruct rest as [|c t].
  { intros H. injection H as <-. exact (opaque_path_marker_free "" Hr). }
  pose proof (marker_free_tail c t Hr) as Ht.
  destruct (is_code 47 c);
    [| intros H; injection H as <-; exact (opaque_path_marker_free (String c t) Hr)].
  destruct t as [|c' t'].
  { intros H. injection H as <-.
    exact (serialize_path_marker_free _ (path_state_start false false "" Ht)). }
  destruct (is_code 47 c').
  - destruct (authority_state host_parser false false t') as [segs|] eqn:E; [|discriminate].
    intros H. injection H as <-. apply serialize_path_marker_free.
    eapply authority_state_marker_free; [| exact E]. eapply marker_free_tail, Ht.
  - intros H. injection H as <-.
    exact (serialize_path_marker_free _ (path_state_start false false (String c' t') Ht)).
Qed.

End WhatwgFacts.

(** ** Capture by content type against the final filter *)

Lemma on_response_adds url responseHeaders s :
  includes (Observer.content_type responseHeaders) "application/vnd.apple.mpegurl" = true \/
  includes (Observer.content_type responseHeaders) "application/x-mpegurl" = true ->
  In url (m3u8Links (Observer.on_response url responseHeaders s)).
Proof.
  intros H. unfold Observer.on_response.
  assert (includes url marker
          || includes (Observer.content_type responseHeaders) "application/vnd.apple.mpegurl"
          || includes (Observer.content_type responseHeaders) "application/x-mpegurl" = true) as ->.
  { destruct H as [-> | ->]; [rewrite orb_true_r|]; apply orb_true_r || reflexivity. }
  simpl. apply In_add. now right.
Qed.

Lemma delivered_response_is_captured url responseHeaders events s :
  includes (Observer.content_type responseHeaders) "application/vnd.apple.mpegurl" = true \/
  includes (Observer.content_type responseHeaders) "application/x-mpegurl" = true ->
  In (Response url responseHeaders) events ->
  In url (m3u8Links (Observer.deliver_all events s)).
Proof.
  intros Hc. unfold Observer.deliver_all. revert s.
  induction events as [|ev events IH]; intros s H; [destruct H|].
  destruct H as [-> | H]; simpl.
  - apply (links_deliver_all_mono events). now apply on_response_adds.
  - now apply IH.
Qed.

Lemma unfaithful_only (URL : string -> outcome URLObject) url :
  marker_faithful URL url -> includes url marker = false -> is_manifest_url URL url = false.
Proof.
  intros Hf Hu. unfold is_manifest_url.
  destruct (URL url) as [u|e] eqn:E; [|reflexivity].
  destruct (includes (pathname u) marker) eqn:P; [|reflexivity].
  rewrite <- Hu. symmetry. now apply (Hf u).
Qed.

(** C4. A response whose content type names an Apple HLS manifest and
    whose URL does not contain [.m3u8] is put into the link set by the
    response hook; when the extraction returns, the URL is in the final link
    set and not in the result: the final filter has removed it.  This holds
    for every [URL] constructor that does not make up the marker for that
    text, and the reference constructor is one for every text without tab
    or newline (a serialised response URL has none). *)
Theorem C4_content_type_capture_is_filtered_out
    (url : string) (responseHeaders : list (string * string)) :
  includes (Observer.content_type responseHeaders) "application/vnd.apple.mpegurl" = true \/
  includes (Observer.content_type responseHeaders) "application/x-mpegurl" = true ->
  includes url marker = false ->
  (forall s, In url (m3u8Links (Observer.on_response url responseHeaders s))) /\
  (forall URL w targetUrl s' result,
     marker_faithful URL url ->
     In (Response url responseHeaders) (traffic w) ->
     extractM3U8WithBrowser URL w targetUrl initial = (s', Return result) ->
     In url (m3u8Links s') /\ ~ In url result) /\
  (forall host_parser w targetUrl s' result,
     all (fun c => negb (Whatwg.tab_or_newline c)) url = true ->
     In (Response url responseHeaders) (traffic w) ->
     extractM3U8WithBrowser (Whatwg.URL host_parser) w targetUrl initial = (s', Return result) ->
     In url (m3u8Links s') /\ ~ In url result).
Proof.
  intros Hc Hu.
  assert (forall URL w targetUrl s' result,
            marker_faithful URL url ->
            In (Response url responseHeaders) (traffic w) ->
            extractM3U8WithBrowser URL w targetUrl initial = (s', Return result) ->
            In url (m3u8Links s') /\ ~ In url result) as Hgen.
  { intros URL w targetUrl s' result Hf Hin He.
    apply extract_Return in He. destruct He as (pageLinks & _ & Hs & ->).
    split.
    - rewrite Hs. apply In_add_all. left.
      now apply delivered_response_is_captured with (responseHeaders := responseHeaders).
    - intros H. apply final_filter_In in H. destruct H as [_ H].
      rewrite (unfaithful_only URL url Hf Hu) in H. discriminate. }
  split; [| split].
  - intros s. now apply on_response_adds.
  - exact Hgen.
  - intros host_parser w targetUrl s' result Htn. apply Hgen.
    intros u Eu Hp.
    destruct (includes url marker) eqn:E; [reflexivity|].
    pose proof (URL_marker_free host_parser url u Htn E Eu) as Hm.
    unfold marker_free in Hm. congruence.
Qed.

Lemma C4_witness :
  In "https://cdn.example.com/live/playlist"
     (m3u8Links (fst (extractM3U8WithBrowser Sample.URL Sample.world Sample.target initial))) /\
  ~ In "https://cdn.example.com/live/playlist"
      ["https://cdn.example.com/live/index.m3u8?token=abc";
       "https://example.com/video/master.m3u8"].
Proof.
  refine (proj2 (proj2 (C4_content_type_capture_is_filtered_out
            "https://cdn.example.com/live/playlist"
            [("content-type", "application/vnd.apple.mpegurl")] _ _))
            Whatwg.plain_host Sample.world Sample.target _ _ _ _ _).
  - left. reflexivity.
  - reflexivity.
  - reflexivity.
  - simpl. tauto.
  - vm_compute. reflexivity.
Defined.

(* ================================================================== *)
(** * Further properties of the code *)

(** ** The hooks over the whole traffic *)

Lemma links_deliver_iff ev s x :
  In x (m3u8Links (Observer.deliver s ev)) <-> In x (m3u8Links s) \/ captures ev x.
Proof.
  destruct ev as [resourceType url | url responseHeaders]; simpl.
  - unfold Observer.on_request.
    destruct (includes url marker) eqn:E, (existsb _ _); simpl;
      rewrite ?In_add; intuition (subst; eauto; congruence).
  - unfold Observer.on_response.
    destruct (_ || _) eqn:E; simpl; rewrite ?In_add; intuition (subst; eauto; congruence).
Qed.

Lemma links_deliver_all_iff events s x :
  In x (m3u8Links (Observer.deliver_all events s)) <->
  In x (m3u8Links s) \/ exists ev, In ev events /\ captures ev x.
Proof.
  unfold Observer.deliver_all. revert s.
  induction events as [|ev events IH]; intros s; simpl.
  - split; [now left | intros [H | (ev & [] & _)]; exact H].
  - rewrite IH, links_deliver_iff. split.
    + intros [[H|H] | (ev' & Hin & Hc)]; eauto.
    + intros [H | (ev' & [-> | Hin] & Hc)]; eauto.
Qed.

Lemma trace_deliver ev s :
  trace (Observer.deliver s ev) = (trace s ++ decisions [ev])%list /\
  browser (Observer.deliver s ev) = browser s.
Proof.
  destruct ev as [resourceType url | url responseHeaders];
    unfold decisions; cbn [flat_map Observer.deliver]; rewrite app_nil_r.
  - unfold Observer.on_request.
    destruct (includes url marker), (existsb _ _); now split.
  - unfold Observer.on_response.
    destruct (_ || _); simpl; rewrite ?app_nil_r; now split.
Qed.

Lemma decisions_app e1 e2 : decisions (e1 ++ e2) = (decisions e1 ++ decisions e2)%list.
Proof. unfold decisions. apply flat_map_app. Qed.

Lemma trace_deliver_all events s :
  trace (Observer.deliver_all events s) = (trace s ++ decisions events)%list.
Proof.
  unfold Observer.deliver_all. revert s.
  induction events as [|ev events IH]; intros s; simpl fold_left.
  - unfold decisions. simpl. now rewrite app_nil_r.
  - rewrite IH. rewrite (proj1 (trace_deliver ev s)).
    change (ev :: events) with ([ev] ++ events)%list.
    now rewrite decisions_app, app_assoc.
Qed.

Lemma trace_add_links links s :
  trace (fold_left (fun s link => add_link link s) links s) = trace s.
Proof.
  revert s. induction links as [|l links IH]; intros s; simpl; [reflexivity|].
  now rewrite IH.
Qed.

Lemma scan_returns_unique w l1 l2 : scan_returns w l1 -> scan_returns w l2 -> l1 = l2.
Proof.
  intros (_ & _ & _ & _ & _ & _ & _ & d1 & E1 & P1) (_ & _ & _ & _ & _ & _ & _ & d2 & E2 & P2).
  congruence.
Qed.

(** ** The extraction as a whole *)

(** The final link set of a run that returns holds exactly the URLs a hook
    captured from the traffic and the strings the scanner reported; the
    result holds those of them that pass the final filter.  Nothing is made
    up and nothing that qualifies is lost, whichever phase delivered it. *)
Theorem final_link_set_is_traffic_and_scan
    (URL : string -> outcome URLObject) (w : World) (targetUrl : JSValue)
    (s' : Session) (result pageLinks : list string) (x : string) :
  extractM3U8WithBrowser URL w targetUrl initial = (s', Return result) ->
  scan_returns w pageLinks ->
  (In x (m3u8Links s') <->
   (exists ev, In ev (traffic w) /\ captures ev x) \/ In x pageLinks) /\
  (In x result <->
   ((exists ev, In ev (traffic w) /\ captures ev x) \/ In x pageLinks) /\
   is_manifest_url URL x = true).
Proof.
  intros H Hs. apply extract_Return in H.
  destruct H as (pageLinks0 & Hs0 & Hl & ->).
  rewrite (scan_returns_unique w pageLinks pageLinks0 Hs Hs0).
  assert (In x (m3u8Links s') <->
          (exists ev, In ev (traffic w) /\ captures ev x) \/ In x pageLinks0) as Hset.
  { rewrite Hl, In_add_all, links_deliver_all_iff. simpl. tauto. }
  split; [exact Hset|].
  rewrite final_filter_In, Hset. tauto.
Qed.

Lemma final_link_set_witness :
  In "https://example.com/api?file=.m3u8"
     (m3u8Links (fst (extractM3U8WithBrowser Sample.URL Sample.world Sample.target initial))) /\
  ~ In "https://example.com/api?file=.m3u8"
      ["https://cdn.example.com/live/index.m3u8?token=abc";
       "https://example.com/video/master.m3u8"].
Proof.
  pose proof (final_link_set_is_traffic_and_scan Sample.URL Sample.world Sample.target
                (fst (extractM3U8WithBrowser Sample.URL Sample.world Sample.target initial))
                ["https://cdn.example.com/live/index.m3u8?token=abc";
                 "https://example.com/video/master.m3u8"]
                ["https://example.com/video/master.m3u8";
                 "https://cdn.example.com/live/index.m3u8?token=abc";
                 "stream/relative.m3u8"]
                "https://example.com/api?file=.m3u8"
                ltac:(vm_compute; reflexivity)
                ltac:(unfold scan_returns; simpl; repeat split; eauto)) as [H1 H2].
  split.
  - apply H1. left. exists (Request "fetch" "https://example.com/api?file=.m3u8").
    split; [simpl; tauto | split; reflexivity].
  - intros H. apply H2 in H. destruct H as [_ H]. vm_compute in H. discriminate H.
Defined.

(** The calls of a run in which every call returns, in order: the user
    agent and the interception are set before the navigation starts, every
    intercepted request is answered exactly once, by an abort or a continue,
    while the navigation, the settle delay or the evaluation is pending, and
    the browser is closed last. *)
Theorem calls_of_a_run_in_order
    (URL : string -> outcome URLObject) (w : World) (targetUrl : JSValue)
    (pageLinks : list string) :
  scan_returns w pageLinks ->
  trace (fst (extractM3U8WithBrowser URL w targetUrl initial))
  = ([Chromium_executablePath; Puppeteer_launch; Browser_newPage;
      Page_setUserAgent userAgent_string; Page_setRequestInterception true;
      Page_goto targetUrl 25000]
     ++ decisions (fst (page_goto w))
     ++ [Page_waitForTimeout 5000]
     ++ decisions (fst (page_waitForTimeout w))
     ++ [Page_evaluate]
     ++ decisions (fst (page_evaluate w))
     ++ [Browser_close])%list.
Proof.
  intros ([path R1] & R2 & R3 & R4 & R5 & R6 & R7 & doc & R8 & R9).
  rewrite extract_unfold. unfold extract_body.
  rewrite (bind_call_Return _ _ _ _ _ R1), (bind_call_Return _ _ _ _ _ R2), bind_modify,
    (bind_call_Return _ _ _ _ _ R3), (bind_call_Return _ _ _ _ _ R4),
    (bind_call_Return _ _ _ _ _ R5), (bind_await_Return _ _ _ _ _ R6),
    (bind_await_Return _ _ _ _ _ R7), (bind_await_Return _ _ _ _ _ R8),
    (bind_lift_Return _ _ _ _ R9), bind_modify, bind_get.
  unfold ret.
  match goal with
  | |- context [browser ?s0] =>
      assert (browser s0 = true) as ->;
      [ apply (frame_add_links pageLinks);
        repeat match goal with
        | |- browser (Observer.deliver_all ?e ?s1) = true => apply (frame_deliver_all e s1)
        | |- browser (log ?op ?s1) = true => change (browser s1 = true)
        end; reflexivity |]
  end.
  assert (forall (r : outcome unit) s1 (l : list string),
            trace (fst (match r with
                        | Return _ => (log Browser_close s1, Return l)
                        | Throw e => (log Browser_close s1, Throw e)
                        end)) = (trace s1 ++ [Browser_close])%list) as Hc
    by (intros [[]|e] s1 l; reflexivity).
  rewrite Hc, trace_add_links.
  repeat (rewrite trace_deliver_all; cbn [trace log set_browser]).
  cbn [initial trace app]. rewrite <- !app_assoc. reflexivity.
Qed.

Lemma calls_of_a_run_witness :
  trace (fst (extractM3U8WithBrowser Sample.URL Sample.world_empty Sample.target initial))
  = [Chromium_executablePath; Puppeteer_launch; Browser_newPage;
     Page_setUserAgent userAgent_string; Page_setRequestInterception true;
     Page_goto Sample.target 25000; Request_continue "https://example.com/watch";
     Page_waitForTimeout 5000; Page_evaluate; Browser_close].
Proof.
  apply (calls_of_a_run_in_order Sample.URL Sample.world_empty Sample.target []).
  unfold scan_returns; simpl; repeat split; eauto.
Defined.

Lemma fold_left_preserves {A B} (P : A -> Prop) (f : A -> B -> A) :
  (forall a b, P a -> P (f a b)) -> forall bs a, P a -> P (fold_left f bs a).
Proof.
  intros Hf bs. induction bs as [|b bs IH]; intros a H; simpl; [exact H|].
  apply IH, Hf, H.
Qed.

Lemma add_matches_NoDup links text : NoDup links -> NoDup (Scanner.add_matches links text).
Proof.
  intros H. unfold Scanner.add_matches.
  destruct (Pattern.String_match text); [now apply NoDup_add_all | exact H].
Qed.

Lemma scan_config_NoDup doc links name :
  NoDup links -> NoDup (Scanner.scan_config doc links name).
Proof.
  intros H. unfold Scanner.scan_config.
  destruct (window doc name) as [[|[[configStr|]|e]]|e]; auto using add_matches_NoDup.
Qed.

Lemma scan_element_NoDup links el : NoDup links -> NoDup (Scanner.scan_element links el).
Proof.
  unfold Scanner.scan_element. apply fold_left_preserves.
  intros l attr H. unfold Scanner.scan_attribute.
  destruct (getAttribute el attr) as [value|]; [|exact H].
  destruct (_ && _); [now apply NoDup_add | exact H].
Qed.

(** The first three passes keep a set duplicate-free. *)
Lemma scan_passes_NoDup doc links :
  NoDup links ->
  NoDup (Scanner.scan_elements doc (Scanner.scan_configs doc (Scanner.scan_scripts doc links))).
Proof.
  intros H. unfold Scanner.scan_elements.
  apply fold_left_preserves; [intros l el; apply scan_element_NoDup|].
  unfold Scanner.scan_configs.
  apply fold_left_preserves; [intros l name; apply scan_config_NoDup|].
  unfold Scanner.scan_scripts.
  apply fold_left_preserves; [intros l el; apply add_matches_NoDup|].
  exact H.
Qed.

(** Merging a duplicate-free list into a set appends, in their order, the
    entries the set does not hold yet. *)
Lemma add_all_appends_the_new (xs : list string) (s : JSSet.t) :
  NoDup xs ->
  JSSet.add_all s xs = (s ++ filter (fun x => negb (JSSet.has s x)) xs)%list.
Proof.
  unfold JSSet.add_all. revert s. induction xs as [|x xs IH]; intros s Hnd; simpl.
  - now rewrite app_nil_r.
  - inversion Hnd as [|? ? Hx Hxs]; subst. rewrite (IH _ Hxs). unfold JSSet.add.
    destruct (JSSet.has s x) eqn:Hh; simpl; [reflexivity|].
    rewrite <- app_assoc. simpl. do 2 f_equal.
    apply filter_ext_in. intros y Hy. f_equal.
    unfold JSSet.has. rewrite existsb_app. simpl. rewrite orb_false_r.
    destruct (String.eqb y x) eqn:E; [| now rewrite orb_false_r].
    apply String.eqb_eq in E. subst y. contradiction.
Qed.

(** The result lists first the links captured from the traffic that pass
    the final filter, in the order of capture, and after them, in the order
    of the scan, the links of the scan that were not captured from the
    traffic and pass the filter: nothing else, and none of these is left
    out.  So when a manifest URL was seen on the network, the first entry
    of the result (the primary link of the response) is one seen on the
    network. *)
Theorem network_links_come_first
    (URL : string -> outcome URLObject) (w : World) (targetUrl : JSValue)
    (s' : Session) (result pageLinks : list string) :
  extractM3U8WithBrowser URL w targetUrl initial = (s', Return result) ->
  scan_returns w pageLinks ->
  result
  = (final_filter URL (m3u8Links (Observer.deliver_all (traffic w) initial))
     ++ final_filter URL
          (filter (fun link =>
                     negb (JSSet.has (m3u8Links (Observer.deliver_all (traffic w) initial))
                             link))
                  pageLinks))%list /\
  ((exists x, In x (m3u8Links (Observer.deliver_all (traffic w) initial))
              /\ is_manifest_url URL x = true) ->
   exists primary rest,
     result = primary :: rest /\
     In primary (m3u8Links (Observer.deliver_all (traffic w) initial))).
Proof.
  intros H Hs. apply extract_Return in H.
  destruct H as (pageLinks0 & Hs0 & Hl & ->).
  rewrite (scan_returns_unique w pageLinks pageLinks0 Hs Hs0).
  set (seen := m3u8Links (Observer.deliver_all (traffic w) initial)) in *.
  assert (NoDup pageLinks0) as Hnd.
  { destruct Hs0 as (_ & _ & _ & _ & _ & _ & _ & doc & _ & Hp).
    unfold Scanner.pageFunction, Scanner.scan_html in Hp.
    destruct (documentElement doc) as [allText|]; [|discriminate Hp].
    injection Hp as <-. apply add_matches_NoDup, scan_passes_NoDup. constructor. }
  assert (final_filter URL (m3u8Links s')
          = (final_filter URL seen
             ++ final_filter URL (filter (fun link => negb (JSSet.has seen link)) pageLinks0))%list)
    as Hr
    by (rewrite Hl, (add_all_appends_the_new pageLinks0 seen Hnd);
        unfold final_filter; apply filter_app).
  split; [exact Hr|].
  intros (x & Hin & Hm). rewrite Hr.
  assert (In x (final_filter URL seen)) as Hf by (apply final_filter_In; now split).
  destruct (final_filter URL seen) as [|p rest] eqn:Ef; [destruct Hf|].
  eexists p, _. split; [reflexivity|].
  assert (In p (final_filter URL seen)) as Hp by (rewrite Ef; now left).
  now apply final_filter_In in Hp.
Qed.

Lemma network_links_witness :
  ["https://cdn.example.com/live/index.m3u8?token=abc";
   "https://example.com/video/master.m3u8"]
  = (final_filter Sample.URL (m3u8Links (Observer.deliver_all (traffic Sample.world) initial))
     ++ final_filter Sample.URL
          (filter (fun link =>
                     negb (JSSet.has
                             (m3u8Links (Observer.deliver_all (traffic Sample.world) initial))
                             link))
                  ["https://example.com/video/master.m3u8";
                   "https://cdn.example.com/live/index.m3u8?token=abc";
                   "stream/relative.m3u8"]))%list.
Proof.
  refine (proj1 (network_links_come_first Sample.URL Sample.world Sample.target
            (fst (extractM3U8WithBrowser Sample.URL Sample.world Sample.target initial))
            _ ["https://example.com/video/master.m3u8";
               "https://cdn.example.com/live/index.m3u8?token=abc";
               "stream/relative.m3u8"] _ _)).
  - vm_compute. reflexivity.
  - unfold scan_returns; simpl; repeat split; eauto.
Defined.

(** ** Teardown, the other way round *)

(** [browser.close()] is called exactly when the browser was launched: a
    failure to find the executable or to launch leaves [browser] null, the
    [finally] block then calls nothing, and that first error is the one the
    routine throws. *)
Theorem close_is_called_iff_launched
    (URL : string -> outcome URLObject) (w : World) (targetUrl : JSValue) :
  (In Browser_close (trace (fst (extractM3U8WithBrowser URL w targetUrl initial)))
   <-> (exists path, chromium_executablePath w = Return path)
       /\ puppeteer_launch w = Return tt) /\
  (forall e, chromium_executablePath w = Throw e ->
     extractM3U8WithBrowser URL w targetUrl initial
     = ({| browser := false; m3u8Links := []; trace := [Chromium_executablePath] |},
        Throw e)) /\
  (forall path e, chromium_executablePath w = Return path -> puppeteer_launch w = Throw e ->
     extractM3U8WithBrowser URL w targetUrl initial
     = ({| browser := false; m3u8Links := [];
           trace := [Chromium_executablePath; Puppeteer_launch] |},
        Throw e)).
Proof.
  assert (forall e, chromium_executablePath w = Throw e ->
            extractM3U8WithBrowser URL w targetUrl initial
            = ({| browser := false; m3u8Links := []; trace := [Chromium_executablePath] |},
               Throw e)) as H1.
  { intros e He. rewrite extract_unfold. unfold extract_body, bind, call, modify, lift.
    simpl. rewrite He. reflexivity. }
  assert (forall path e, chromium_executablePath w = Return path ->
            puppeteer_launch w = Throw e ->
            extractM3U8WithBrowser URL w targetUrl initial
            = ({| browser := false; m3u8Links := [];
                  trace := [Chromium_executablePath; Puppeteer_launch] |},
               Throw e)) as H2.
  { intros path e Hp He. rewrite extract_unfold. unfold extract_body.
    rewrite (bind_call_Return _ _ _ _ _ Hp). unfold bind, call, modify, lift.
    simpl. rewrite He. reflexivity. }
  split; [| split; [exact H1 | exact H2]].
  split.
  - intros Hin.
    destruct (chromium_executablePath w) as [path|e] eqn:Ep.
    + split; [now exists path|].
      destruct (puppeteer_launch w) as [[]|e] eqn:El; [reflexivity|].
      rewrite (H2 path e eq_refl eq_refl) in Hin. simpl in Hin.
      intuition discriminate.
    + rewrite (H1 e eq_refl) in Hin. simpl in Hin. intuition discriminate.
  - intros [[path Hp] Hl].
    destruct (body_keeps_launched_browser URL w targetUrl path Hp Hl) as [Hb _].
    rewrite extract_unfold.
    destruct (extract_body URL w targetUrl initial) as [s1 r]. simpl in Hb. rewrite Hb.
    destruct (browser_close w) as [[]|e]; simpl; apply in_app_iff; right; now left.
Qed.

(** An exception of [browser.close()] replaces whatever the routine was
    about to return: with links found and every other call returning, the
    routine throws what the close threw.  The handler then answers 500 with
    the message of that value instead of 200, and throws in its turn when
    the message cannot be read. *)
Theorem close_failure_replaces_the_result
    (URL : string -> outcome URLObject) (JSON_parse : string -> outcome JSValue)
    (w : World) (event : Event) (context : Context) (v : JSValue) (u : URLObject)
    (pageLinks : list string) (e : Thrown) :
  scan_returns w pageLinks ->
  browser_close w = Throw e ->
  read_target JSON_parse event = Return (Some v) ->
  truthy v = true ->
  new_URL URL v = Return u ->
  snd (extractM3U8WithBrowser URL w v initial) = Throw e /\
  (forall text, error_message e = Return text ->
     snd (handler URL JSON_parse w event (Some context) initial)
     = Return (failure 500 ("Internal server error: " ++ text))) /\
  (forall raised, error_message e = Throw raised ->
     snd (handler URL JSON_parse w event (Some context) initial) = Throw raised).
Proof.
  intros Hs Hc Hr Ht Hu.
  assert (snd (extractM3U8WithBrowser URL w v initial) = Throw e) as Hx.
  { rewrite extract_unfold.
    destruct (extract_body_returns URL w v initial pageLinks Hs) as (s1 & -> & ->).
    now rewrite Hc. }
  split; [exact Hx|].
  rewrite (handler_valid URL JSON_parse context w event initial v u
             (read_target_not_options _ _ _ Hr) Hr Ht Hu).
  destruct (extractM3U8WithBrowser URL w v initial) as [s' [l|e']]; simpl in Hx;
    [discriminate|].
  injection Hx as ->. split; [intros text -> | intros raised ->]; reflexivity.
Qed.

Lemma close_failure_witness :
  snd (extractM3U8WithBrowser Sample.URL Sample.world_close_fails Sample.target initial)
  = Throw (Thrown_object Sample.target_closed) /\
  snd (handler Sample.URL Sample.JSON_parse Sample.world_close_fails
         (Sample.get_event "https://example.com/watch") (Some Sample.context) initial)
  = Return (failure 500 "Internal server error: Protocol error: Target closed").
Proof.
  destruct (close_failure_replaces_the_result Sample.URL Sample.JSON_parse
              Sample.world_close_fails (Sample.get_event "https://example.com/watch")
              Sample.context Sample.target {| pathname := "/watch" |}
              ["https://example.com/video/master.m3u8";
               "https://cdn.example.com/live/index.m3u8?token=abc";
               "stream/relative.m3u8"]
              (Thrown_object Sample.target_closed)
              ltac:(unfold scan_returns; simpl; repeat split; eauto)
              eq_refl eq_refl eq_refl ltac:(vm_compute; reflexivity)) as (H1 & H2 & _).
  split; [exact H1 | exact (H2 _ eq_refl)].
Defined.

(** A navigation that throws (a timeout, an unreachable page) ends the
    routine with that error once the browser is closed: the settle delay and
    the scan are not run, and the links the hooks had captured by then are
    left in the set and not returned. *)
Theorem navigation_failure_discards_captured_links
    (URL : string -> outcome URLObject) (w : World) (targetUrl : JSValue)
    (path : string) (e : Thrown) :
  chromium_executablePath w = Return path ->
  puppeteer_launch w = Return tt ->
  browser_newPage w = Return tt ->
  page_setUserAgent w = Return tt ->
  page_setRequestInterception w = Return tt ->
  snd (page_goto w) = Throw e ->
  browser_close w = Return tt ->
  snd (extractM3U8WithBrowser URL w targetUrl initial) = Throw e /\
  m3u8Links (fst (extractM3U8WithBrowser URL w targetUrl initial))
  = m3u8Links (Observer.deliver_all (fst (page_goto w)) initial) /\
  trace (fst (extractM3U8WithBrowser URL w targetUrl initial))
  = ([Chromium_executablePath; Puppeteer_launch; Browser_newPage;
      Page_setUserAgent userAgent_string; Page_setRequestInterception true;
      Page_goto targetUrl 25000]
     ++ decisions (fst (page_goto w)) ++ [Browser_close])%list.
Proof.
  intros R1 R2 R3 R4 R5 R6 Rc.
  rewrite extract_unfold. unfold extract_body.
  rewrite (bind_call_Return _ _ _ _ _ R1), (bind_call_Return _ _ _ _ _ R2), bind_modify,
    (bind_call_Return _ _ _ _ _ R3), (bind_call_Return _ _ _ _ _ R4),
    (bind_call_Return _ _ _ _ _ R5).
  unfold bind at 1. unfold await, bind, modify, lift. cbn [fst snd]. rewrite R6.
  match goal with
  | |- context [browser ?s0] =>
      assert (browser s0 = true) as ->;
      [ match goal with
        | |- browser (Observer.deliver_all ?ev ?s1) = true =>
            apply (frame_deliver_all ev s1); reflexivity
        end |]
  end.
  rewrite Rc. cbn [fst snd]. split; [reflexivity|]. split.
  - cbn [m3u8Links log]. apply links_deliver_all_congr. reflexivity.
  - cbn [trace log]. rewrite trace_deliver_all. cbn [trace log set_browser initial app].
    rewrite <- ?app_assoc. reflexivity.
Qed.

Lemma navigation_failure_witness :
  snd (extractM3U8WithBrowser Sample.URL Sample.world_timeout Sample.target initial)
  = Throw (Thrown_object Sample.navigation_timeout) /\
  m3u8Links (fst (extractM3U8WithBrowser Sample.URL Sample.world_timeout Sample.target initial))
  = m3u8Links (Observer.deliver_all Sample.page_traffic initial) /\
  trace (fst (extractM3U8WithBrowser Sample.URL Sample.world_timeout Sample.target initial))
  = ([Chromium_executablePath; Puppeteer_launch; Browser_newPage;
      Page_setUserAgent userAgent_string; Page_setRequestInterception true;
      Page_goto Sample.target 25000]
     ++ decisions Sample.page_traffic ++ [Browser_close])%list.
Proof.
  apply (navigation_failure_discards_captured_links Sample.URL Sample.world_timeout
           Sample.target "/tmp/chromium"); reflexivity.
Defined.

(** ** The handler on every input *)

Lemma trace_after_call {A B} op (r : outcome A) (k : A -> M B) s :
  (forall a, framed (k a)) ->
  exists ops, trace (fst (bind (call op r) k s)) = (trace s ++ op :: ops)%list.
Proof.
  intros Hk. destruct r as [a|e].
  - rewrite (bind_call_Return op _ k a s eq_refl).
    destruct (Hk a (log op s)) as (_ & _ & ops & Ht & _). exists ops.
    rewrite Ht. simpl. now rewrite <- app_assoc.
  - now exists [].
Qed.

(** Whatever happens next, the routine starts by asking for the executable. *)
Lemma extract_body_first_call (URL : string -> outcome URLObject) w t :
  exists ops,
    trace (fst (extract_body URL w t initial)) = Chromium_executablePath :: ops.
Proof.
  unfold extract_body. apply (trace_after_call _ _ _ initial). intros path. framed_steps.
Qed.

(** Called with a context object, the handler ends in one of two ways,
    whatever the event and whatever the browser does.  Either it returns a
    response: the status is 200, 400, 404 or 500, the headers are the CORS
    and content-type headers, and except for the empty body of the
    [OPTIONS] answer the body is the serialisation of an object whose first
    member is [success], true exactly on status 200.  Or it throws: then
    reading the target or the extraction threw a value whose message cannot
    be read ([undefined], [null], or a message that throws when it is read
    or converted), and what the handler throws is what reading that message
    threw.  Called without a context object it throws before anything else,
    on the assignment of line 6. *)
Theorem handler_answers_or_fails_on_the_message
    (URL : string -> outcome URLObject) (JSON_parse : string -> outcome JSValue)
    (w : World) (event : Event) (context : Context) :
  (exists raised, handler URL JSON_parse w event None initial = (initial, Throw raised)) /\
  exists s' out,
    handler URL JSON_parse w event (Some context) initial = (s', out) /\
    match out with
    | Return r =>
        In (statusCode r) [200; 400; 404; 500] /\
        response_headers r = headers /\
        ((httpMethod event = "OPTIONS" /\ statusCode r = 200 /\ response_body r = "") \/
         (httpMethod event <> "OPTIONS" /\
          exists flag members,
            response_body r = JSON_stringify (JObject (("success", JBool flag) :: members)) /\
            (flag = true <-> statusCode r = 200)))
    | Throw raised =>
        httpMethod event <> "OPTIONS" /\
        exists caught,
          error_message caught = Throw raised /\
          (read_target JSON_parse event = Throw caught \/
           exists v, read_target JSON_parse event = Return (Some v) /\
                     extractM3U8WithBrowser URL w v initial = (s', Throw caught))
    end.
Proof.
  split; [eexists; apply handler_without_context|].
  destruct (String.eqb (httpMethod event) "OPTIONS") eqn:Em.
  { apply String.eqb_eq in Em.
    rewrite (handler_options URL JSON_parse context w event initial Em).
    do 2 eexists. split; [reflexivity|]. simpl. tauto. }
  apply String.eqb_neq in Em.
  assert (forall status error,
            In status [400; 404; 500] ->
            let r := failure status error in
            In (statusCode r) [200; 400; 404; 500] /\
            response_headers r = headers /\
            ((httpMethod event = "OPTIONS" /\ statusCode r = 200 /\ response_body r = "") \/
             (httpMethod event <> "OPTIONS" /\
              exists flag members,
                response_body r
                = JSON_stringify (JObject (("success", JBool flag) :: members)) /\
                (flag = true <-> statusCode r = 200)))) as Hfail.
  { intros status error Hst r. subst r.
    split; [simpl in *; tauto | split; [reflexivity|]].
    right. split; [exact Em|]. do 2 eexists. split; [reflexivity|].
    simpl in *. split; [discriminate | intros ->; intuition discriminate]. }
  destruct (read_target JSON_parse event) as [[v|]|e] eqn:Er.
  - destruct (truthy v) eqn:Et.
    + destruct (new_URL URL v) as [u|e] eqn:Eu.
      * rewrite (handler_valid URL JSON_parse context w event initial v u Em Er Et Eu).
        destruct (extractM3U8WithBrowser URL w v initial) as [s1 [[|l ls]|e]] eqn:Ex.
        -- do 2 eexists. split; [reflexivity|]. apply Hfail. simpl. tauto.
        -- do 2 eexists. split; [reflexivity|]. split; [simpl; tauto|].
           split; [reflexivity|]. right. split; [exact Em|].
           do 2 eexists. split; [reflexivity|]. simpl. tauto.
        -- destruct (error_message e) as [text|raised] eqn:Ee.
           ++ do 2 eexists. split; [reflexivity|]. apply Hfail. simpl. tauto.
           ++ do 2 eexists. split; [reflexivity|]. split; [exact Em|].
              exists e. split; [exact Ee|]. right. now exists v.
      * rewrite (handler_invalid URL JSON_parse context w event initial v e Em Er Et Eu).
        do 2 eexists. split; [reflexivity|]. apply Hfail. simpl. tauto.
    + rewrite (handler_missing URL JSON_parse context w event initial (Some v) Em Er Et).
      do 2 eexists. split; [reflexivity|]. apply Hfail. simpl. tauto.
  - rewrite (handler_missing URL JSON_parse context w event initial None Em Er I).
    do 2 eexists. split; [reflexivity|]. apply Hfail. simpl. tauto.
  - rewrite (handler_read_throws URL JSON_parse context w event initial e Em Er).
    destruct (error_message e) as [text|raised] eqn:Ee.
    + do 2 eexists. split; [reflexivity|]. apply Hfail. simpl. tauto.
    + do 2 eexists. split; [reflexivity|]. split; [exact Em|].
      exists e. split; [exact Ee|]. now left.
Qed.

(** The browser is used only for a target that is present and that
    [new URL] accepts, and then it is: in every other case, a target that
    does not convert to a string among them, the handler ends without a
    single call on it. *)
Theorem browser_only_for_a_valid_target
    (URL : string -> outcome URLObject) (JSON_parse : string -> outcome JSValue)
    (w : World) (event : Event) (context : option Context) :
  trace (fst (handler URL JSON_parse w event context initial)) <> [] <->
  (exists c, context = Some c) /\
  httpMethod event <> "OPTIONS" /\
  exists v u,
    read_target JSON_parse event = Return (Some v) /\
    truthy v = true /\
    new_URL URL v = Return u.
Proof.
  split.
  - intros H. destruct context as [c|]; [| now elim H].
    split; [now exists c|].
    destruct (String.eqb (httpMethod event) "OPTIONS") eqn:Em.
    { apply String.eqb_eq in Em.
      rewrite (handler_options URL JSON_parse c w event initial Em) in H. now elim H. }
    apply String.eqb_neq in Em. split; [exact Em|].
    destruct (read_target JSON_parse event) as [[v|]|e] eqn:Er.
    + destruct (truthy v) eqn:Et.
      * destruct (new_URL URL v) as [u|e] eqn:Eu; [now exists v, u|].
        rewrite (handler_invalid URL JSON_parse c w event initial v e Em Er Et Eu) in H.
        now elim H.
      * rewrite (handler_missing URL JSON_parse c w event initial (Some v) Em Er Et) in H.
        now elim H.
    + rewrite (handler_missing URL JSON_parse c w event initial None Em Er I) in H.
      now elim H.
    + rewrite (handler_read_throws URL JSON_parse c w event initial e Em Er) in H.
      destruct (error_message e); now elim H.
  - intros ([c ->] & Em & v & u & Er & Et & Eu).
    rewrite (handler_valid URL JSON_parse c w event initial v u Em Er Et Eu).
    assert (trace (fst (extractM3U8WithBrowser URL w v initial)) <> []) as Hx.
    { rewrite extract_unfold.
      destruct (extract_body_first_call URL w v) as [ops Hops].
      destruct (extract_body URL w v initial) as [s1 r]. simpl in Hops.
      destruct (browser s1); [destruct (browser_close w) |]; simpl; rewrite Hops; discriminate. }
    destruct (extractM3U8WithBrowser URL w v initial) as [s1 [[|l ls]|e]];
      [exact Hx | exact Hx | destruct (error_message e); exact Hx].
Qed.

Lemma browser_only_witness :
  trace (fst (handler Sample.URL Sample.JSON_parse Sample.world
                (Sample.post_event (Some Sample.unprintable_body))
                (Some Sample.context) initial))
  = [].
Proof.
  destruct (trace (fst (handler Sample.URL Sample.JSON_parse Sample.world
                          (Sample.post_event (Some Sample.unprintable_body))
                          (Some Sample.context) initial))) as [|op ops] eqn:E;
    [reflexivity | exfalso].
  destruct (proj1 (browser_only_for_a_valid_target Sample.URL Sample.JSON_parse Sample.world
                     (Sample.post_event (Some Sample.unprintable_body))
                     (Some Sample.context))
              ltac:(rewrite E; discriminate)) as (_ & _ & v & u & Hr & _ & Hu).
  vm_compute in Hr. injection Hr as <-. vm_compute in Hu. discriminate Hu.
Defined.

(** A method other than [GET], [POST] and [OPTIONS] reads no target at all:
    the answer is 400 for the missing url, whatever the query and the body
    hold, and the browser is not used. *)
Theorem other_methods_are_answered_400
    (URL : string -> outcome URLObject) (JSON_parse : string -> outcome JSValue)
    (w : World) (event : Event) (context : Context) :
  ~ In (httpMethod event) ["GET"; "POST"; "OPTIONS"] ->
  handler URL JSON_parse w event (Some context) initial
  = (initial,
     Return (failure 400 "Missing url parameter. Usage: /extract?url=https://example.com")).
Proof.
  intros H. simpl in H.
  apply (handler_missing URL JSON_parse context w event initial None);
    [intros E; apply H; rewrite E; tauto | | exact I].
  unfold read_target.
  destruct (String.eqb (httpMethod event) "GET") eqn:Eg;
    [apply String.eqb_eq in Eg; exfalso; apply H; rewrite Eg; tauto|].
  destruct (String.eqb (httpMethod event) "POST") eqn:Ep;
    [apply String.eqb_eq in Ep; exfalso; apply H; rewrite Ep; tauto|].
  reflexivity.
Qed.

Lemma other_methods_witness :
  handler Sample.URL Sample.JSON_parse Sample.world
    {| httpMethod := "DELETE";
       queryStringParameters := Some [("url", "https://example.com/watch")];
       body := Some "{}" |} (Some Sample.context) initial
  = (initial,
     Return (failure 400 "Missing url parameter. Usage: /extract?url=https://example.com")).
Proof.
  apply other_methods_are_answered_400. simpl. intuition discriminate.
Defined.

Lemma result_NoDup (URL : string -> outcome URLObject) w t s' result :
  extractM3U8WithBrowser URL w t initial = (s', Return result) -> NoDup result.
Proof.
  intros H. apply extract_Return in H. destruct H as (pageLinks & _ & Hs & ->).
  unfold final_filter. apply NoDup_filter. rewrite Hs. apply NoDup_add_all.
  apply (frame_deliver_all (traffic w) initial). constructor.
Qed.

(** What a 200 answer to a [GET] or [POST] holds: the target as received,
    a non-empty list of links without duplicates, each of which parses as a
    URL with the marker in its pathname, the first of them again as
    [primaryLink], and the timestamp. *)
Theorem ok_response_lists_manifest_urls
    (URL : string -> outcome URLObject) (JSON_parse : string -> outcome JSValue)
    (w : World) (event : Event) (context : Context) (s' : Session) (r : HttpResponse) :
  httpMethod event <> "OPTIONS" ->
  handler URL JSON_parse w event (Some context) initial = (s', Return r) ->
  statusCode r = 200 ->
  exists targetUrl primary rest,
    read_target JSON_parse event = Return (Some targetUrl) /\
    extractM3U8WithBrowser URL w targetUrl initial = (s', Return (primary :: rest)) /\
    NoDup (primary :: rest) /\
    (forall link, In link (primary :: rest) -> is_manifest_url URL link = true) /\
    response_body r
    = JSON_stringify
        (JObject [("success", JBool true);
                  ("url", targetUrl);
                  ("m3u8Links", JArray (map JString (primary :: rest)));
                  ("primaryLink", JString primary);
                  ("timestamp", JString (Date_toISOString w))]).
Proof.
  intros Em H Hst.
  destruct (read_target JSON_parse event) as [[v|]|e] eqn:Er.
  - destruct (truthy v) eqn:Et.
    + destruct (new_URL URL v) as [u|e] eqn:Eu.
      * rewrite (handler_valid URL JSON_parse context w event initial v u Em Er Et Eu) in H.
        destruct (extractM3U8WithBrowser URL w v initial) as [s1 [[|l ls]|e]] eqn:Ex;
          [| | destruct (error_message e)];
          inversion H; subst; try discriminate Hst.
        exists v, l, ls. split; [reflexivity | split; [exact Ex|]].
        split; [eapply result_NoDup; exact Ex|]. split; [| reflexivity].
        intros link Hin. apply extract_Return in Ex.
        destruct Ex as (pageLinks & _ & _ & Hr). rewrite Hr in Hin.
        now apply final_filter_In in Hin.
      * rewrite (handler_invalid URL JSON_parse context w event initial v e Em Er Et Eu) in H.
        inversion H; subst. discriminate Hst.
    + rewrite (handler_missing URL JSON_parse context w event initial (Some v) Em Er Et) in H.
      inversion H; subst. discriminate Hst.
  - rewrite (handler_missing URL JSON_parse context w event initial None Em Er I) in H.
    inversion H; subst. discriminate Hst.
  - rewrite (handler_read_throws URL JSON_parse context w event initial e Em Er) in H.
    destruct (error_message e); inversion H; subst. discriminate Hst.
Qed.

Lemma ok_response_witness :
  exists targetUrl primary rest,
    read_target Sample.JSON_parse (Sample.get_event "https://example.com/watch")
    = Return (Some targetUrl) /\
    extractM3U8WithBrowser Sample.URL Sample.world targetUrl initial
    = (fst (handler Sample.URL Sample.JSON_parse Sample.world
              (Sample.get_event "https://example.com/watch") (Some Sample.context) initial),
       Return (primary :: rest)) /\
    NoDup (primary :: rest) /\
    (forall link, In link (primary :: rest) -> is_manifest_url Sample.URL link = true) /\
    response_body
      (respond 200 (success_payload Sample.world Sample.target
         ["https://cdn.example.com/live/index.m3u8?token=abc";
          "https://example.com/video/master.m3u8"]))
    = JSON_stringify
        (JObject [("success", JBool true);
                  ("url", targetUrl);
                  ("m3u8Links", JArray (map JString (primary :: rest)));
                  ("primaryLink", JString primary);
                  ("timestamp", JString (Date_toISOString Sample.world))]).
Proof.
  apply (ok_response_lists_manifest_urls Sample.URL Sample.JSON_parse Sample.world
           (Sample.get_event "https://example.com/watch") Sample.context).
  - discriminate.
  - vm_compute. reflexivity.
  - reflexivity.
Defined.

(** A page on which nothing qualifies: no request URL with the marker, no
    response with the marker or an HLS content type, and a scan that finds
    nothing.  The extraction returns the empty list and the handler answers
    404. *)
Theorem nothing_found_is_answered_404
    (URL : string -> outcome URLObject) (JSON_parse : string -> outcome JSValue)
    (w : World) (event : Event) (context : Context) (v : JSValue) (u : URLObject) :
  scan_returns w [] ->
  browser_close w = Return tt ->
  (forall ev x, In ev (traffic w) -> ~ captures ev x) ->
  read_target JSON_parse event = Return (Some v) ->
  truthy v = true ->
  new_URL URL v = Return u ->
  snd (extractM3U8WithBrowser URL w v initial) = Return [] /\
  snd (handler URL JSON_parse w event (Some context) initial)
  = Return (failure 404 "No M3U8 links found on the webpage").
Proof.
  intros Hs Hc Hq Hr Ht Hu.
  destruct (extract_returns URL w v initial [] Hs Hc) as [s' Hx].
  assert (m3u8Links s' = []) as Hl.
  { pose proof Hx as Hx'. apply extract_Return in Hx'.
    destruct Hx' as (pageLinks & Hs' & Hl & _).
    rewrite <- (scan_returns_unique w [] pageLinks Hs Hs') in Hl. simpl in Hl.
    destruct (m3u8Links s') as [|x l]; [reflexivity|]. exfalso.
    assert (In x (m3u8Links (Observer.deliver_all (traffic w) initial))) as Hin
      by (rewrite <- Hl; now left).
    apply links_deliver_all_iff in Hin. destruct Hin as [[] | (ev & Hin & Hcap)].
    exact (Hq ev x Hin Hcap). }
  rewrite Hl in Hx. simpl in Hx.
  split; [now rewrite Hx|].
  rewrite (handler_valid URL JSON_parse context w event initial v u
             (read_target_not_options _ _ _ Hr) Hr Ht Hu), Hx.
  reflexivity.
Qed.

Lemma nothing_found_witness :
  snd (extractM3U8WithBrowser Sample.URL Sample.world_empty Sample.target initial)
  = Return [] /\
  snd (handler Sample.URL Sample.JSON_parse Sample.world_empty
         (Sample.get_event "https://example.com/watch") (Some Sample.context) initial)
  = Return (failure 404 "No M3U8 links found on the webpage").
Proof.
  apply (nothing_found_is_answered_404 Sample.URL Sample.JSON_parse Sample.world_empty
           (Sample.get_event "https://example.com/watch") Sample.context Sample.target
           {| pathname := "/watch" |}).
  - unfold scan_returns; simpl; repeat split; eauto.
  - reflexivity.
  - intros ev x [<- | []] [_ H]. vm_compute in H. discriminate H.
  - reflexivity.
  - reflexivity.
  - vm_compute. reflexivity.
Defined.

(** ** The Content Scanner on every page *)

Section ScannerFacts.

Import Pattern.

(** The list the scanner returns has no duplicates, however often the
    four passes come across the same string. *)
Theorem scanner_reports_each_link_once (doc : Document) (links : list string) :
  Scanner.pageFunction doc = Return links -> NoDup links.
Proof.
  unfold Scanner.pageFunction, Scanner.scan_html.
  destruct (documentElement doc) as [allText|]; [|discriminate].
  intros H. injection H as <-. unfold JSSet.Array_from.
  apply add_matches_NoDup, scan_passes_NoDup. constructor.
Qed.

Lemma scanner_once_witness :
  NoDup ["https://example.com/video/master.m3u8";
         "https://cdn.example.com/live/index.m3u8?token=abc";
         "stream/relative.m3u8"].
Proof.
  apply (scanner_reports_each_link_once Sample.page). vm_compute. reflexivity.
Defined.

(** The attribute pass takes a value as it stands: the value of one of the
    five source attributes of any element that contains the marker is in
    the list the scanner returns, whether or not it is a URL. *)
Theorem attribute_value_is_reported_verbatim
    (doc : Document) (el : Element) (attr value : string) (links : list string) :
  In el (all_elements doc) ->
  In attr ["data-src"; "data-url"; "data-stream"; "data-file"; "src"] ->
  getAttribute el attr = Some value ->
  includes value marker = true ->
  Scanner.pageFunction doc = Return links ->
  In value links.
Proof.
  intros Hel Hattr Hget Hinc.
  unfold Scanner.pageFunction, Scanner.scan_html.
  destruct (documentElement doc) as [allText|]; [|discriminate].
  intros H. injection H as <-. unfold JSSet.Array_from.
  apply add_matches_mono. unfold Scanner.scan_elements.
  apply fold_left_hit with (b := el); [intros l b; apply scan_element_mono | | exact Hel].
  intros l. unfold Scanner.scan_element.
  apply fold_left_hit with (b := attr); [intros l' b; apply scan_attribute_mono | | exact Hattr].
  intros l'. unfold Scanner.scan_attribute. rewrite Hget, Hinc.
  assert (String.eqb value "" = false) as ->
    by (destruct value; [discriminate Hinc | reflexivity]).
  simpl. apply In_add. now right.
Qed.

Lemma attribute_value_witness :
  In "stream/relative.m3u8"
     ["https://example.com/video/master.m3u8";
      "https://cdn.example.com/live/index.m3u8?token=abc";
      "stream/relative.m3u8"].
Proof.
  apply (attribute_value_is_reported_verbatim Sample.page
           {| localName := "video"; attributes := [("data-src", "stream/relative.m3u8")];
              textContent := ""; innerText := "" |}
           "data-src" "stream/relative.m3u8").
  - simpl. tauto.
  - simpl. tauto.
  - reflexivity.
  - reflexivity.
  - vm_compute. reflexivity.
Defined.

Lemma scan_config_text doc links name :
  Scanner.scan_config doc links name
  = match config_text (window doc name) with
    | Some configStr => Scanner.add_matches links configStr
    | None => links
    end.
Proof.
  unfold Scanner.scan_config, config_text.
  destruct (window doc name) as [[|[[configStr|]|e]]|e]; reflexivity.
Qed.

Lemma fold_left_ext_in {A B} (f g : A -> B -> A) (bs : list B) :
  (forall a b, In b bs -> f a b = g a b) ->
  forall a, fold_left f bs a = fold_left g bs a.
Proof.
  induction bs as [|b bs IH]; intros H a; simpl; [reflexivity|].
  rewrite (H a b (or_introl eq_refl)). apply IH. intros a' b' Hb. apply H. now right.
Qed.

(** Of the page's globals the scanner reads the nine listed names and
    nothing else, and all that counts of each is the text it serialises to:
    a global that is falsy, whose read or serialisation throws, or that
    serialises to [undefined], is the same as an absent one.  Two pages
    that agree on the elements, the HTML and these nine texts give the same
    result. *)
Theorem only_the_listed_globals_count (doc doc' : Document) :
  all_elements doc = all_elements doc' ->
  documentElement doc = documentElement doc' ->
  (forall name,
     In name ["jwplayer"; "videojs"; "Hls"; "hlsPlayer"; "player";
              "videoPlayer"; "streamPlayer"; "mediaPlayer"; "jwConfig"] ->
     config_text (window doc name) = config_text (window doc' name)) ->
  Scanner.pageFunction doc = Scanner.pageFunction doc'.
Proof.
  intros He Hd Hw.
  unfold Scanner.pageFunction, Scanner.scan_html, Scanner.scan_elements,
    Scanner.scan_scripts, querySelectorAll_script.
  rewrite <- He, <- Hd.
  assert (forall l, Scanner.scan_configs doc l = Scanner.scan_configs doc' l) as ->;
    [| reflexivity].
  intros l. unfold Scanner.scan_configs. apply fold_left_ext_in.
  intros a name Hn. rewrite !scan_config_text. now rewrite (Hw name Hn).
Qed.

Lemma only_listed_globals_witness :
  Scanner.pageFunction Sample.page
  = Scanner.pageFunction
      {| all_elements := all_elements Sample.page;
         window := fun name =>
           if String.eqb name "player" then window Sample.page name
           else Throw (Thrown_object
                         {| message := "Blocked a frame from accessing a cross-origin frame" |});
         documentElement := documentElement Sample.page |}.
Proof.
  apply only_the_listed_globals_count; [reflexivity | reflexivity |].
  intros name H. simpl in H.
  repeat (destruct H as [<- | H]; [reflexivity|]). destruct H.
Defined.

End ScannerFacts.

(** ** The pattern on every text *)

Section PatternOnAnyText.

Import Pattern.

Lemma take_drop n s : s = take n s ++ drop n s.
Proof.
  revert s. induction n as [|n IH]; intros s; [now destruct s|].
  destruct s as [|c t]; [reflexivity|]. simpl. now rewrite <- IH.
Qed.

Lemma exec_loop_matches fuel :
  forall s m, In m (exec_loop fuel s) ->
    (exists pre post, s = pre ++ m ++ post) /\ all url_char m = true /\ m <> "".
Proof.
  induction fuel as [|fuel IH]; intros s m H; [destruct H|].
  destruct s as [|c t]; [destruct H|]. cbn [exec_loop] in H.
  destruct (match_at (String c t)) as [n|] eqn:E.
  - destruct H as [<- | H].
    + apply match_at_consumes in E. destruct E as [[_ Ha] Hn].
      split; [| split; [exact Ha|]].
      * exists "", (drop n (String c t)). apply take_drop.
      * destruct n; [lia | discriminate].
    + destruct (IH _ _ H) as ((pre & post & Hs) & Ha & Hne).
      split; [| now split].
      exists (take n (String c t) ++ pre), post.
      rewrite append_assoc, <- Hs. apply take_drop.
  - destruct (IH _ _ H) as ((pre & post & Hs) & Ha & Hne).
    split; [| now split].
    exists (String c pre), post. simpl. now rewrite <- Hs.
Qed.

(** Every match the pattern reports on a text is a non-empty piece of that
    text and holds no white space, quote, angle bracket, parenthesis, brace
    or square bracket. *)
Theorem matches_are_clean_pieces_of_the_text (text m : string) (matches : list string) :
  String_match text = Some matches ->
  In m matches ->
  includes text m = true /\ all url_char m = true /\ m <> "".
Proof.
  unfold String_match, match_all. intros H Hin.
  assert (In m (exec_loop (String.length text) text)) as Hm.
  { destruct (exec_loop (String.length text) text); [discriminate|].
    now injection H as <-. }
  destruct (exec_loop_matches _ _ _ Hm) as (Hs & Ha & Hne).
  split; [now apply includes_spec | now split].
Qed.

Lemma matches_are_clean_witness :
  includes Sample.list_script_text
    "https://example.com/video/low.m3u8,https://example.com/video/master.m3u8" = true /\
  all url_char "https://example.com/video/low.m3u8,https://example.com/video/master.m3u8"
  = true /\
  "https://example.com/video/low.m3u8,https://example.com/video/master.m3u8" <> "".
Proof.
  apply (matches_are_clean_pieces_of_the_text Sample.list_script_text _
           ["https://example.com/video/low.m3u8,https://example.com/video/master.m3u8"]).
  - vm_compute. reflexivity.
  - simpl. tauto.
Defined.

(** *** Any delimited manifest URL *)

Lemma char_ci_trans p q c : char_ci p c = true -> char_ci q c = char_ci q p.
Proof.
  unfold char_ci. intros H. apply Ascii.eqb_eq in H. now rewrite H.
Qed.

Lemma not_url_char_not_ci p c :
  url_char p = true -> url_char c = false -> char_ci p c = false.
Proof.
  intros Hp Hc. destruct (char_ci p c) eqn:E; [|reflexivity].
  rewrite (char_ci_url_char p c E Hp) in Hc. discriminate.
Qed.

Lemma class_star_then_delimiter post :
  right_delimited post -> class_star_then post = None /\ query_opt post = 0.
Proof.
  intros [-> | H]; [now split|].
  destruct post as [|c p]; [discriminate|]. simpl in H. apply negb_true_iff in H.
  cbn [class_star_then query_opt]. rewrite H.
  unfold marker_then. cbn [literal marker].
  rewrite (not_url_char_not_ci "." c eq_refl H). split; [reflexivity|].
  destruct (Ascii.eqb c "?") eqn:E; [|reflexivity].
  apply Ascii.eqb_eq in E. subst. discriminate H.
Qed.

Lemma literal_exact pat : forall a,
  literal pat a = Some "" -> String.length a = String.length pat.
Proof.
  induction pat as [|p pat IH]; intros a H; simpl in *.
  - now inversion H.
  - destruct a as [|c a]; [discriminate|].
    destruct (char_ci p c); [|discriminate]. simpl. now rewrite (IH a H).
Qed.

Lemma literal_append pat : forall a r,
  literal pat a = Some "" -> literal pat (a ++ r) = Some r.
Proof.
  induction pat as [|p pat IH]; intros a r H; simpl in *.
  - now inversion H.
  - destruct a as [|c a]; [discriminate|]. cbn [append].
    destruct (char_ci p c); [now apply IH | discriminate].
Qed.

(** The marker, in any case, followed by a delimiter: the run stops there. *)
Lemma class_star_then_marker ext post :
  literal marker ext = Some "" -> right_delimited post ->
  class_star_then (ext ++ post) = Some 5.
Proof.
  intros He Hp. destruct (class_star_then_delimiter post Hp) as [Hn Hq].
  pose proof (literal_exact marker ext He) as Hlen.
  destruct ext as [|e1 [|e2 [|e3 [|e4 [|e5 [|e6 t]]]]]]; try discriminate Hlen.
  cbn [literal marker] in He.
  destruct (char_ci "." e1) eqn:H1; [|discriminate He].
  destruct (char_ci "m" e2) eqn:H2; [|discriminate He].
  destruct (char_ci "3" e3) eqn:H3; [|discriminate He].
  destruct (char_ci "u" e4) eqn:H4; [|discriminate He].
  destruct (char_ci "8" e5) eqn:H5; [|discriminate He].
  assert (char_ci "." e2 = false) as D2
    by (rewrite (char_ci_trans "m" "." e2 H2); reflexivity).
  assert (char_ci "." e3 = false) as D3
    by (rewrite (char_ci_trans "3" "." e3 H3); reflexivity).
  assert (char_ci "." e4 = false) as D4
    by (rewrite (char_ci_trans "u" "." e4 H4); reflexivity).
  assert (char_ci "." e5 = false) as D5
    by (rewrite (char_ci_trans "8" "." e5 H5); reflexivity).
  cbn [append class_star_then].
  rewrite (char_ci_url_char "." e1 H1 eq_refl), (char_ci_url_char "m" e2 H2 eq_refl),
    (char_ci_url_char "3" e3 H3 eq_refl), (char_ci_url_char "u" e4 H4 eq_refl),
    (char_ci_url_char "8" e5 H5 eq_refl), Hn.
  unfold marker_then. cbn [literal marker].
  rewrite D5, D4, D3, D2. cbv beta iota.
  rewrite H1, H2, H3, H4, H5. cbv beta iota. now rewrite Hq.
Qed.

Lemma class_star_then_run body ext post :
  all url_char body = true ->
  literal marker ext = Some "" -> right_delimited post ->
  class_star_then (body ++ ext ++ post) = Some (String.length body + 5).
Proof.
  intros Hb He Hp. induction body as [|c body IH]; simpl in *.
  - now apply class_star_then_marker.
  - apply andb_true_iff in Hb. destruct Hb as [Hc Hb].
    rewrite Hc, (IH Hb). reflexivity.
Qed.

Lemma match_at_manifest_text text post :
  manifest_text text -> right_delimited post ->
  match_at (text ++ post) = Some (String.length text).
Proof.
  intros (scheme & body & ext & -> & Hs & Hne & Hb & He) Hp.
  assert (slashes_then ("://" ++ body ++ ext ++ post)
          = Some (3 + String.length body + 5)) as Hsl.
  { unfold slashes_then.
    assert (literal "://" ("://" ++ body ++ ext ++ post) = Some (body ++ ext ++ post)) as ->
      by reflexivity.
    destruct body as [|b body]; [contradiction|].
    simpl in Hb. apply andb_true_iff in Hb. destruct Hb as [Hc Hb].
    cbn [append class_plus_then]. rewrite Hc.
    rewrite (class_star_then_run body ext post Hb He Hp). reflexivity. }
  rewrite !append_assoc, !length_append, (literal_exact marker ext He).
  unfold match_at. destruct Hs as [Hs | Hs].
  - rewrite (literal_append "http" scheme _ Hs), (literal_exact "http" scheme Hs).
    cbn [append s_opt_then]. change (char_ci "s" ":") with false. cbv iota.
    change (String ":" (String "/" (String "/" (body ++ ext ++ post))))
      with ("://" ++ body ++ ext ++ post).
    rewrite Hsl. simpl. f_equal; lia.
  - destruct scheme as [|h [|t1 [|t2 [|p [|s [|x r]]]]]]; cbn [literal] in Hs;
      try discriminate Hs;
      repeat match type of Hs with
      | (if ?b then _ else _) = _ => destruct b eqn:?; [|discriminate Hs]
      end; try discriminate Hs.
    cbn [append literal].
    repeat match goal with
    | H : char_ci _ _ = true |- _ => rewrite H; clear H
    end.
    cbn [s_opt_then].
    repeat match goal with
    | H : char_ci _ _ = true |- _ => rewrite H; clear H
    end.
    change (String ":" (String "/" (String "/" (body ++ ext ++ post))))
      with ("://" ++ body ++ ext ++ post).
    rewrite Hsl. simpl. f_equal; lia.
Qed.

(** Any absolute [http] or [https] URL that ends in the marker, in whatever
    case, and stands delimited in a text is one of the matches of the
    pattern on that text, whatever else the text holds. *)
Theorem delimited_manifest_url_is_matched (text pre post : string) :
  manifest_text text ->
  left_delimited pre ->
  right_delimited post ->
  exists matches,
    String_match (pre ++ text ++ post) = Some matches /\ In text matches.
Proof.
  intros Ht Hpre Hpost.
  assert (In text (match_all (pre ++ text ++ post))) as H.
  { unfold match_all. apply exec_loop_finds; auto.
    - destruct Ht as (scheme & body & ext & -> & [Hs|Hs] & _);
        destruct scheme; discriminate.
    - intros p Hp. now apply match_at_manifest_text. }
  unfold String_match. destruct (match_all (pre ++ text ++ post)) as [|m ms]; [destruct H|].
  now eexists.
Qed.

Lemma delimited_manifest_url_witness :
  exists matches,
    String_match ("<video src='" ++ "HTTPS://CDN.Example.com/Live/Index.M3U8" ++ "'>")
    = Some matches /\
    In "HTTPS://CDN.Example.com/Live/Index.M3U8" matches.
Proof.
  apply delimited_manifest_url_is_matched.
  - exists "HTTPS", "CDN.Example.com/Live/Index", ".M3U8".
    repeat split; try reflexivity; [now right | discriminate].
  - right. reflexivity.
  - right. reflexivity.
Defined.

End PatternOnAnyText.
